(** * NeoChat service worker (src/service-worker.js)

    A shallow embedding of the worker's six event listeners over an explicit
    model of the host runtime: cache storage, network, response objects,
    window clients, notifications and the console.  Promises are computations
    over the host state that settle as fulfilled or rejected; a promise that
    is started without being returned or handed to the event is kept as a
    floating task, which runs only if the worker is still alive.

    The host operations follow the Cache, Fetch, Clients and Notifications
    interfaces as far as the listeners use them.  Storage operations
    (open, keys, delete, match) always fulfil; the network decides whether a
    fetch fulfils or rejects.  URLs are strings: a path that the worker
    hands to the host (cache.addAll, clients.openWindow) is resolved against
    the worker's origin, and the entry or the page it yields carries the
    resolved URL. *)

From Stdlib Require Import Ascii.
From stdpp Require Import gmap strings list.

Set Warnings "-register-all".

Local Open Scope Z_scope.
Local Open Scope string_scope.
Local Open Scope list_scope.

(** ** Data *)

Record Request := { method : string; url : string }.

(** The content of a response: what the network delivers and what a cache
    bucket stores. *)
Record ResponseData := {
  status : Z;
  statusText : string;
  headers : list (string * string);
  body : string
}.

(** A Response object: its content and whether its body stream was read. *)
Record Response := { data : ResponseData; bodyUsed : bool }.

(** Response objects live in a store and handlers pass references to them. *)
Definition Ref := nat.

Inductive ClientType := WindowType | WorkerType | SharedWorkerType.

Record Client := {
  client_id : nat;
  client_type : ClientType;
  client_url : string
}.

Record NotificationOptions := {
  opt_body : string;
  opt_icon : string;
  opt_badge : string;
  opt_tag : string;
  opt_requireInteraction : bool
}.

Record Notification := {
  notification_id : nat;
  notification_title : string;
  notification_options : NotificationOptions
}.

(** Values that reach the worker through postMessage. *)
Inductive JsValue :=
| JsUndefined
| JsNull
| JsBool (b : bool)
| JsNumber (n : Z)
| JsString (s : string)
| JsObject (fields : list (string * JsValue)).

Inductive JsError := TypeError | NetworkError.

(** ** Host state *)

Record Host := {
  origin : string;
    (* scheme and authority of the worker's scope, as in https://host *)
  caches : list (string * gmap string ResponseData);
    (* CacheStorage: buckets by name, in creation order *)
  network : Request -> option ResponseData;
    (* what a fetch of the request yields now; None: the fetch rejects *)
  store : list Response;
    (* the Response objects allocated so far *)
  clients : list Client;
  focused : option nat;
  openWindow_available : bool;
  notifications : list Notification;
  next_id : nat;
  skip_waiting_flag : bool;
  clients_claimed : bool;
  console : list string
}.

Definition set_caches (f : list (string * gmap string ResponseData) ->
                           list (string * gmap string ResponseData))
    (h : Host) : Host :=
  {| origin := origin h; caches := f (caches h); network := network h; store := store h;
     clients := clients h; focused := focused h;
     openWindow_available := openWindow_available h;
     notifications := notifications h; next_id := next_id h;
     skip_waiting_flag := skip_waiting_flag h;
     clients_claimed := clients_claimed h; console := console h |}.

Definition set_network (net : Request -> option ResponseData) (h : Host) : Host :=
  {| origin := origin h; caches := caches h; network := net; store := store h;
     clients := clients h; focused := focused h;
     openWindow_available := openWindow_available h;
     notifications := notifications h; next_id := next_id h;
     skip_waiting_flag := skip_waiting_flag h;
     clients_claimed := clients_claimed h; console := console h |}.

Definition set_store (f : list Response -> list Response) (h : Host) : Host :=
  {| origin := origin h; caches := caches h; network := network h; store := f (store h);
     clients := clients h; focused := focused h;
     openWindow_available := openWindow_available h;
     notifications := notifications h; next_id := next_id h;
     skip_waiting_flag := skip_waiting_flag h;
     clients_claimed := clients_claimed h; console := console h |}.

Definition set_clients (f : list Client -> list Client) (h : Host) : Host :=
  {| origin := origin h; caches := caches h; network := network h; store := store h;
     clients := f (clients h); focused := focused h;
     openWindow_available := openWindow_available h;
     notifications := notifications h; next_id := next_id h;
     skip_waiting_flag := skip_waiting_flag h;
     clients_claimed := clients_claimed h; console := console h |}.

Definition set_focused (c : option nat) (h : Host) : Host :=
  {| origin := origin h; caches := caches h; network := network h; store := store h;
     clients := clients h; focused := c;
     openWindow_available := openWindow_available h;
     notifications := notifications h; next_id := next_id h;
     skip_waiting_flag := skip_waiting_flag h;
     clients_claimed := clients_claimed h; console := console h |}.

Definition set_notifications (f : list Notification -> list Notification)
    (h : Host) : Host :=
  {| origin := origin h; caches := caches h; network := network h; store := store h;
     clients := clients h; focused := focused h;
     openWindow_available := openWindow_available h;
     notifications := f (notifications h); next_id := next_id h;
     skip_waiting_flag := skip_waiting_flag h;
     clients_claimed := clients_claimed h; console := console h |}.

Definition bump_id (h : Host) : Host :=
  {| origin := origin h; caches := caches h; network := network h; store := store h;
     clients := clients h; focused := focused h;
     openWindow_available := openWindow_available h;
     notifications := notifications h; next_id := S (next_id h);
     skip_waiting_flag := skip_waiting_flag h;
     clients_claimed := clients_claimed h; console := console h |}.

Definition set_skip_waiting (b : bool) (h : Host) : Host :=
  {| origin := origin h; caches := caches h; network := network h; store := store h;
     clients := clients h; focused := focused h;
     openWindow_available := openWindow_available h;
     notifications := notifications h; next_id := next_id h;
     skip_waiting_flag := b;
     clients_claimed := clients_claimed h; console := console h |}.

Definition set_claimed (b : bool) (h : Host) : Host :=
  {| origin := origin h; caches := caches h; network := network h; store := store h;
     clients := clients h; focused := focused h;
     openWindow_available := openWindow_available h;
     notifications := notifications h; next_id := next_id h;
     skip_waiting_flag := skip_waiting_flag h;
     clients_claimed := b; console := console h |}.

Definition log_line (msg : string) (h : Host) : Host :=
  {| origin := origin h; caches := caches h; network := network h; store := store h;
     clients := clients h; focused := focused h;
     openWindow_available := openWindow_available h;
     notifications := notifications h; next_id := next_id h;
     skip_waiting_flag := skip_waiting_flag h;
     clients_claimed := clients_claimed h; console := console h ++ [msg] |}.

(** ** Promises and floating work *)

Inductive Settled (A : Type) :=
| Fulfilled (a : A)
| Rejected (e : JsError).
Arguments Fulfilled {A} a.
Arguments Rejected {A} e.

(** The asynchronous host operations a handler can leave running. *)
Inductive Op :=
| OpCacheOpen (name : string)
| OpCachePut (name : string) (req : Request) (resp : Ref)
| OpSkipWaiting
| OpClientsClaim.

(** A promise that was started but that nothing waits for. *)
Inductive Task :=
| Floating (op : Op) (run : Host -> Settled unit * Host * list Task).

Definition Promise (A : Type) : Type := Host -> Settled A * Host * list Task.

Definition task_op (t : Task) : Op := match t with Floating op _ => op end.

Definition resolve {A} (a : A) : Promise A := fun h => (Fulfilled a, h, []).

(** [p.then(f)] *)
Definition then_ {A B} (p : Promise A) (f : A -> Promise B) : Promise B :=
  fun h =>
    match p h with
    | (Fulfilled a, h1, ts1) =>
        let '(r, h2, ts2) := f a h1 in (r, h2, ts1 ++ ts2)
    | (Rejected e, h1, ts1) => (Rejected e, h1, ts1)
    end.

(** [p.catch(g)] *)
Definition catch_ {A} (p : Promise A) (g : JsError -> Promise A) : Promise A :=
  fun h =>
    match p h with
    | (Fulfilled a, h1, ts1) => (Fulfilled a, h1, ts1)
    | (Rejected e, h1, ts1) =>
        let '(r, h2, ts2) := g e h1 in (r, h2, ts1 ++ ts2)
    end.

(** A call whose promise is dropped: the operation is started, the caller
    goes on at once, and the operation's settlement is awaited by nobody. *)
Definition floating {A} (op : Op) (p : Promise A) : Task :=
  Floating op (fun h =>
    match p h with
    | (Fulfilled _, h1, ts) => (Fulfilled tt, h1, ts)
    | (Rejected e, h1, ts) => (Rejected e, h1, ts)
    end).

Definition detach {A} (op : Op) (p : Promise A) : Promise unit :=
  fun h => (Fulfilled tt, h, [floating op p]).

(** [Promise.all(ps)]: the promises were all started, in list order, when
    the list was built, so every one of them runs; the result is fulfilled
    when all are, and rejected with the first rejection otherwise. *)
Definition all_settled {A} (r : Settled A) (rs : Settled (list A)) : Settled (list A) :=
  match r, rs with
  | Fulfilled a, Fulfilled l => Fulfilled (a :: l)
  | Rejected e, _ => Rejected e
  | Fulfilled _, Rejected e => Rejected e
  end.

Fixpoint Promise_all {A} (ps : list (Promise A)) : Promise (list A) :=
  match ps with
  | [] => resolve []
  | p :: rest =>
      fun h =>
        let '(r, h1, ts1) := p h in
        let '(rs, h2, ts2) := Promise_all rest h1 in
        (all_settled r rs, h2, ts1 ++ ts2)
  end.

Definition console_log (msg : string) : Promise unit :=
  fun h => (Fulfilled tt, log_line msg h, []).

(** Floating tasks run, oldest first, when the worker stays alive long
    enough; each may start further ones. *)
Fixpoint settle (fuel : nat) (ts : list Task) (h : Host) : Host * list Task :=
  match fuel, ts with
  | _, [] => (h, [])
  | O, _ => (h, ts)
  | S n, Floating _ run :: rest =>
      let '(_, h1, new) := run h in settle n (rest ++ new) h1
  end.

(** ** Host operations *)

Module CacheStorage.

Abbreviation t := (list (string * gmap string ResponseData)).

Fixpoint bucket (name : string) (cs : t) : option (gmap string ResponseData) :=
  match cs with
  | [] => None
  | (n, b) :: rest => if String.eqb n name then Some b else bucket name rest
  end.

(** A bucket that does not exist yet is created after the existing ones. *)
Definition open (name : string) (cs : t) : t :=
  match bucket name cs with
  | Some _ => cs
  | None => cs ++ [(name, ∅)]
  end.

Fixpoint update (name : string)
    (f : gmap string ResponseData -> gmap string ResponseData) (cs : t) : t :=
  match cs with
  | [] => []
  | (n, b) :: rest =>
      if String.eqb n name then (n, f b) :: rest
      else (n, b) :: update name f rest
  end.

Fixpoint remove (name : string) (cs : t) : t :=
  match cs with
  | [] => []
  | (n, b) :: rest =>
      if String.eqb n name then remove name rest
      else (n, b) :: remove name rest
  end.

Definition keys (cs : t) : list string := fst <$> cs.

(** The first bucket, in creation order, that holds the URL. *)
Fixpoint find (u : string) (cs : t) : option ResponseData :=
  match cs with
  | [] => None
  | (_, b) :: rest =>
      match b !! u with
      | Some r => Some r
      | None => find u rest
      end
  end.

End CacheStorage.

(** A URL the worker hands to the host is resolved against the worker's own
    location: a path, which starts with a slash, is put after the origin; an
    absolute URL is left as it is. *)
Definition resolve_url (base u : string) : string :=
  if String.prefix "/" u then base +:+ u else u.

(** The scheme of a serialized URL is http or https. *)
Definition http_scheme (u : string) : bool :=
  String.prefix "http://" u || String.prefix "https://" u.

Definition lower (c : ascii) : ascii :=
  let n := nat_of_ascii c in
  if (65 <=? n)%nat && (n <=? 90)%nat then ascii_of_nat (n + 32) else c.

Fixpoint lowercase (s : string) : string :=
  match s with
  | EmptyString => EmptyString
  | String c rest => String (lower c) (lowercase rest)
  end.

(** The members of a comma-separated header value, spaces and tabs dropped. *)
Fixpoint members (cur v : string) : list string :=
  match v with
  | EmptyString => [cur]
  | String c rest =>
      if Ascii.eqb c ","%char then cur :: members EmptyString rest
      else if Ascii.eqb c " "%char || Ascii.eqb c "009"%char then members cur rest
      else members (cur +:+ String c EmptyString) rest
  end.

(** The headers hold a Vary header, under any spelling of its name, one of
    whose members is the star. *)
Definition varies_on_everything (hs : list (string * string)) : bool :=
  existsb (fun kv =>
             String.eqb (lowercase kv.1) "vary" &&
             existsb (String.eqb "*") (members EmptyString kv.2)) hs.

(** What the Cache interface takes as an entry: the URL of the request has
    the scheme http or https, and the response is neither partial (206) nor
    varying on everything (a Vary header with the star). *)
Definition storable (u : string) (d : ResponseData) : bool :=
  http_scheme u && negb (status d =? 206)%Z && negb (varies_on_everything (headers d)).

Definition alloc (r : Response) : Promise Ref :=
  fun h => (Fulfilled (length (store h)), set_store (fun s => s ++ [r]) h, []).

Definition fresh (d : ResponseData) : Response := {| data := d; bodyUsed := false |}.

Definition consumed (r : Response) : Response := {| data := data r; bodyUsed := true |}.

(** [fetch(request)]: fulfils with a new Response object, whatever its
    status, and rejects when the network gives none. *)
Definition fetch (request : Request) : Promise Ref :=
  fun h =>
    match network h request with
    | Some d => alloc (fresh d) h
    | None => (Rejected NetworkError, h, [])
    end.

(** [response.status] *)
Definition response_status (r : Ref) : Promise Z :=
  fun h =>
    match store h !! r with
    | Some o => (Fulfilled (status (data o)), h, [])
    | None => (Rejected TypeError, h, [])
    end.

(** [response.clone()]: throws when the body was already read. *)
Definition response_clone (r : Ref) : Promise Ref :=
  fun h =>
    match store h !! r with
    | Some o => if bodyUsed o then (Rejected TypeError, h, [])
                else alloc (fresh (data o)) h
    | None => (Rejected TypeError, h, [])
    end.

(** [new Response(body, init)] *)
Definition new_Response (b : string) (st : Z) (stText : string)
    (hs : list (string * string)) : Promise Ref :=
  alloc (fresh {| status := st; statusText := stText; headers := hs; body := b |}).

(** [caches.open(name)]: the handle of a bucket is its name. *)
Definition caches_open (name : string) : Promise string :=
  fun h => (Fulfilled name, set_caches (CacheStorage.open name) h, []).

(** [caches.keys()] *)
Definition caches_keys : Promise (list string) :=
  fun h => (Fulfilled (CacheStorage.keys (caches h)), h, []).

(** [caches.delete(name)]: fulfils with whether the bucket existed. *)
Definition caches_delete (name : string) : Promise bool :=
  fun h =>
    (Fulfilled (bool_decide (is_Some (CacheStorage.bucket name (caches h)))),
     set_caches (CacheStorage.remove name) h, []).

(** [caches.match(request)]: searches every bucket of the storage, in
    creation order, and fulfils with a new Response object or undefined. *)
Definition caches_match (request : Request) : Promise (option Ref) :=
  fun h =>
    if String.eqb (method request) "GET" then
      match CacheStorage.find (url request) (caches h) with
      | Some d =>
          match alloc (fresh d) h with
          | (Fulfilled r, h1, ts) => (Fulfilled (Some r), h1, ts)
          | (Rejected e, h1, ts) => (Rejected e, h1, ts)
          end
      | None => (Fulfilled None, h, [])
      end
    else (Fulfilled None, h, []).

(** [cache.put(request, response)]: rejects with a TypeError when the
    method of the request is not GET, when the scheme of its URL is not http
    or https, when the response is partial (206) or has a Vary header with
    the star, and when the body of the response was already read.
    Otherwise the body is read into the entry, which replaces an earlier
    entry for the same URL.  A put through the handle of a bucket that was
    deleted meanwhile changes nothing in the storage. *)
Definition cache_put (cache : string) (request : Request) (response : Ref)
    : Promise unit :=
  fun h =>
    if negb (String.eqb (method request) "GET") then (Rejected TypeError, h, [])
    else
      match store h !! response with
      | Some o =>
          if negb (storable (url request) (data o)) || bodyUsed o
          then (Rejected TypeError, h, [])
          else
            (Fulfilled tt,
             set_caches
               (CacheStorage.update cache (fun b => <[url request := data o]> b))
               (set_store (fun s => <[response := consumed o]> s) h),
             [])
      | None => (Rejected TypeError, h, [])
      end.

(** One request of [cache.addAll]: the URL is fetched with GET; the answer
    has to have an ok status (200 to 299) and, as for a put, an http or
    https URL, a status other than 206 and no Vary header with the star. *)
Definition fetch_seed (net : Request -> option ResponseData) (u : string)
    : option ResponseData :=
  match net {| method := "GET"; url := u |} with
  | Some d =>
      if (200 <=? status d)%Z && (status d <=? 299)%Z && storable u d
      then Some d else None
  | None => None
  end.

Definition fetch_seeds (net : Request -> option ResponseData) (urls : list string)
    : option (list (string * ResponseData)) :=
  mapM (fun u => pair u <$> fetch_seed net u) urls.

Definition put_seeds (l : list (string * ResponseData))
    (b : gmap string ResponseData) : gmap string ResponseData :=
  foldl (fun acc pd => <[pd.1 := pd.2]> acc) b l.

(** [cache.addAll(paths)]: the paths are resolved and fetched; the entries
    are written only when every answer is ok. *)
Definition cache_addAll (cache : string) (paths : list string) : Promise unit :=
  fun h =>
    match fetch_seeds (network h) (resolve_url (origin h) <$> paths) with
    | Some l =>
        (Fulfilled tt, set_caches (CacheStorage.update cache (put_seeds l)) h, [])
    | None => (Rejected TypeError, h, [])
    end.

(** [self.skipWaiting()] *)
Definition skipWaiting : Promise unit :=
  fun h => (Fulfilled tt, set_skip_waiting true h, []).

(** [self.clients.claim()] *)
Definition clients_claim : Promise unit :=
  fun h => (Fulfilled tt, set_claimed true h, []).

Definition is_window (c : Client) : bool :=
  match client_type c with WindowType => true | _ => false end.

(** [clients.matchAll({ type: 'window' })] *)
Definition clients_matchAll_window : Promise (list Client) :=
  fun h => (Fulfilled (List.filter is_window (clients h)), h, []).

(** ['focus' in client]: focus is a method of window clients only. *)
Definition has_focus (c : Client) : bool := is_window c.

(** [client.focus()] *)
Definition client_focus (c : Client) : Promise (option Client) :=
  fun h => (Fulfilled (Some c), set_focused (Some (client_id c)) h, []).

(** [clients.openWindow(url)]: the page is opened at the resolved URL, which
    is the URL its client then reports. *)
Definition clients_openWindow (u : string) : Promise (option Client) :=
  fun h =>
    let c := {| client_id := next_id h; client_type := WindowType;
                client_url := resolve_url (origin h) u |} in
    (Fulfilled (Some c), bump_id (set_clients (fun cl => cl ++ [c]) h), []).

Definition same_tag (tag : string) (n : Notification) : bool :=
  negb (String.eqb tag EmptyString) && String.eqb (opt_tag (notification_options n)) tag.

(** [self.registration.showNotification(title, options)]: a notification
    with a non-empty tag replaces the displayed ones with that tag. *)
Definition showNotification (title : string) (options : NotificationOptions)
    : Promise unit :=
  fun h =>
    let n := {| notification_id := next_id h; notification_title := title;
                notification_options := options |} in
    (Fulfilled tt,
     bump_id (set_notifications
       (fun ns => List.filter (fun m => negb (same_tag (opt_tag options) m)) ns ++ [n]) h),
     []).

(** [notification.close()] *)
Definition notification_close (n : Notification) (h : Host) : Host :=
  set_notifications
    (List.filter (fun m => negb (Nat.eqb (notification_id m) (notification_id n)))) h.

(** Truthiness of a value. *)
Definition truthy (v : JsValue) : bool :=
  match v with
  | JsUndefined | JsNull => false
  | JsBool b => b
  | JsNumber n => negb (n =? 0)%Z
  | JsString s => negb (String.eqb s EmptyString)
  | JsObject _ => true
  end.

Fixpoint field (k : string) (fs : list (string * JsValue)) : JsValue :=
  match fs with
  | [] => JsUndefined
  | (k', v) :: rest => if String.eqb k' k then v else field k rest
  end.

(** [v.type]: reading a property of null or undefined throws; booleans,
    numbers and strings have no such property. *)
Definition get_type (v : JsValue) : option JsValue :=
  match v with
  | JsUndefined | JsNull => None
  | JsObject fs => Some (field "type" fs)
  | _ => Some JsUndefined
  end.

(** [v === s] for a string literal [s] *)
Definition strict_eq_string (v : JsValue) (s : string) : bool :=
  match v with
  | JsString s' => String.eqb s' s
  | _ => false
  end.

(** ** The worker *)

Definition CACHE_NAME : string := "neochat-v10-cache".

Definition FILES_TO_CACHE : list string := ["/"; "/index.html"; "/service-worker.js"].

(** What a listener handed to its event. *)
Inductive Registration :=
| NotRegistered
| WaitUntil (p : Promise unit)
| RespondWith (p : Promise Ref).

(** The outcome of a listener's synchronous body: the host after it, an
    exception it threw, the promise it registered with the event, and the
    promises it started without registering them. *)
Record Reaction := {
  after_sync : Host;
  thrown : option JsError;
  registered : Registration;
  started : list Task
}.

(** install *)
Definition on_install (h : Host) : Reaction :=
  {| after_sync := log_line "[SW] Installing Service Worker..." h;
     thrown := None;
     registered := WaitUntil
       (then_ (caches_open CACHE_NAME) (fun cache =>
          then_ (console_log "[SW] Caching files...") (fun _ =>
            catch_ (cache_addAll cache FILES_TO_CACHE) (fun _ =>
              console_log "[SW] Some files could not be cached"))));
     started := [floating OpSkipWaiting skipWaiting] |}.

(** The callback of [cacheNames.map] in the activate listener: for the
    current name it returns undefined, for any other it logs and returns the
    promise of the deletion. *)
Definition delete_if_stale (cacheName : string) : Promise (option bool) :=
  if negb (String.eqb cacheName CACHE_NAME) then
    then_ (console_log ("[SW] Deleting old cache: " +:+ cacheName)) (fun _ =>
      then_ (caches_delete cacheName) (fun deleted => resolve (Some deleted)))
  else resolve None.

(** activate *)
Definition on_activate (h : Host) : Reaction :=
  {| after_sync := log_line "[SW] Service Worker activated" h;
     thrown := None;
     registered := WaitUntil
       (then_ caches_keys (fun cacheNames =>
          then_ (Promise_all (delete_if_stale <$> cacheNames)) (fun _ =>
            resolve tt)));
     started := [floating OpClientsClaim clients_claim] |}.

(** The chain [caches.open(CACHE_NAME).then(cache => { cache.put(...) })] of
    the fetch listener: the callback starts the put and returns nothing. *)
Definition open_and_put (request : Request) (responseClone : Ref) : Promise unit :=
  then_ (caches_open CACHE_NAME) (fun cache =>
    detach (OpCachePut cache request responseClone)
      (cache_put cache request responseClone)).

(** The [.then] callback of the fetch listener: the chain above is a bare
    statement, so the callback returns the response without waiting for it. *)
Definition cache_if_ok (request : Request) (response : Ref) : Promise Ref :=
  then_ (response_status response) (fun st =>
    then_
      (if (st =? 200)%Z then
         then_ (response_clone response) (fun responseClone =>
           detach (OpCacheOpen CACHE_NAME) (open_and_put request responseClone))
       else resolve tt)
      (fun _ => resolve response)).

(** The [.catch] callback of the fetch listener. *)
Definition cached_or_offline (request : Request) : Promise Ref :=
  then_ (caches_match request) (fun response =>
    match response with
    | Some r => resolve r
    | None =>
        new_Response "Offline - No cached response" 503 "Service Unavailable"
          [("Content-Type", "text/plain")]
    end).

(** fetch *)
Definition on_fetch (request : Request) (h : Host) : Reaction :=
  if negb (String.eqb (method request) "GET") then
    {| after_sync := h; thrown := None; registered := NotRegistered; started := [] |}
  else
    {| after_sync := h;
       thrown := None;
       registered := RespondWith
         (catch_ (then_ (fetch request) (cache_if_ok request))
                 (fun _ => cached_or_offline request));
       started := [] |}.

Definition push_options (payload : option string) : NotificationOptions :=
  {| opt_body := match payload with
                 | Some text => text
                 | None => "Новое сообщение в NeoChat"
                 end;
     opt_icon := "/favicon.ico";
     opt_badge := "/favicon.ico";
     opt_tag := "neochat-notification";
     opt_requireInteraction := false |}.

(** push *)
Definition on_push (payload : option string) (h : Host) : Reaction :=
  {| after_sync := log_line "[SW] Push notification received:" h;
     thrown := None;
     registered := WaitUntil (showNotification "NeoChat" (push_options payload));
     started := [] |}.

(** The [for] loop of the notificationclick listener: the first client that
    passes the test ends it. *)
Fixpoint first_root_client (clientList : list Client) : option Client :=
  match clientList with
  | [] => None
  | c :: rest =>
      if String.eqb (client_url c) "/" && has_focus c then Some c
      else first_root_client rest
  end.

Definition focus_or_open (clientList : list Client) : Promise (option Client) :=
  match first_root_client clientList with
  | Some c => client_focus c
  | None =>
      fun h =>
        if openWindow_available h then clients_openWindow "/" h
        else resolve None h
  end.

(** notificationclick *)
Definition on_notificationclick (notification : Notification) (h : Host) : Reaction :=
  {| after_sync :=
       notification_close notification (log_line "[SW] Notification clicked:" h);
     thrown := None;
     registered := WaitUntil
       (then_ clients_matchAll_window (fun clientList =>
          then_ (focus_or_open clientList) (fun _ => resolve tt)));
     started := [] |}.

(** The condition [event.data && event.data.type === 'SKIP_WAITING'];
    [None] when evaluating it throws. *)
Definition is_skip_waiting (d : JsValue) : option bool :=
  if truthy d then
    match get_type d with
    | Some v => Some (strict_eq_string v "SKIP_WAITING")
    | None => None
    end
  else Some false.

(** message *)
Definition on_message (d : JsValue) (h : Host) : Reaction :=
  let h1 := log_line "[SW] Message received:" h in
  match is_skip_waiting d with
  | Some true =>
      {| after_sync := h1; thrown := None; registered := NotRegistered;
         started := [floating OpSkipWaiting skipWaiting] |}
  | Some false =>
      {| after_sync := h1; thrown := None; registered := NotRegistered;
         started := [] |}
  | None =>
      {| after_sync := h1; thrown := Some TypeError; registered := NotRegistered;
         started := [] |}
  end.

Inductive Event :=
| InstallEvent
| ActivateEvent
| FetchEvent (request : Request)
| PushEvent (payload : option string)
| NotificationClickEvent (notification : Notification)
| MessageEvent (d : JsValue).

(** The listener registered for each event type. *)
Definition listener (ev : Event) : Host -> Reaction :=
  match ev with
  | InstallEvent => on_install
  | ActivateEvent => on_activate
  | FetchEvent request => on_fetch request
  | PushEvent payload => on_push payload
  | NotificationClickEvent n => on_notificationclick n
  | MessageEvent d => on_message d
  end.

(** ** Dispatch *)

(** How the event ended for the host. *)
Inductive Verdict :=
| Unhandled                       (* nothing registered: default handling *)
| Extended (r : Settled unit)     (* the waitUntil promise settled *)
| Responded (r : Settled Ref).    (* the respondWith promise settled *)

(** The host runs the listener, then keeps the worker alive until the
    registered promise has settled.  The tasks left over are the floating
    ones: the host does not wait for them. *)
Definition dispatch (ev : Event) (h : Host) : Verdict * Host * list Task :=
  let r := listener ev h in
  match registered r with
  | NotRegistered => (Unhandled, after_sync r, started r)
  | WaitUntil p =>
      let '(res, h1, ts) := p (after_sync r) in
      (Extended res, h1, started r ++ ts)
  | RespondWith p =>
      let '(res, h1, ts) := p (after_sync r) in
      (Responded res, h1, started r ++ ts)
  end.

(** ** Auxiliary definitions for the statements *)

(** The storage an activation leaves behind, by the names it enumerated. *)
Definition prune (names : list string)
    (cs : list (string * gmap string ResponseData)) :=
  foldl (fun acc n =>
           if String.eqb n CACHE_NAME then acc else CacheStorage.remove n acc)
        cs names.

(** The entry of the current named cache for a URL. *)
Definition current_entry (u : string) (h : Host) : option ResponseData :=
  CacheStorage.bucket CACHE_NAME (caches h) ≫= (fun b => b !! u).

(** Every promise the listener started was handed to the event. *)
Definition all_work_registered (ev : Event) (h : Host) : Prop :=
  (dispatch ev h).2 = [].

Definition offline_response : ResponseData :=
  {| status := 503; statusText := "Service Unavailable";
     headers := [("Content-Type", "text/plain")];
     body := "Offline - No cached response" |}.

(** Properties of the cache storage that the storage operations of the
    worker cannot break: opening the current bucket, rewriting a bucket and
    deleting a bucket. *)
Definition stable (P : list (string * gmap string ResponseData) -> Prop) : Prop :=
  (forall cs, P cs -> P (CacheStorage.open CACHE_NAME cs)) /\
  (forall name f cs, P cs -> P (CacheStorage.update name f cs)) /\
  (forall name cs, P cs -> P (CacheStorage.remove name cs)).

(** A floating task keeps a property of the storage, and so do the tasks it
    starts. *)
Inductive task_keeps (P : list (string * gmap string ResponseData) -> Prop)
    : Task -> Prop :=
| task_keeps_intro op run :
    (forall h, P (caches h) ->
       P (caches (run h).1.2) /\ Forall (task_keeps P) (run h).2) ->
    task_keeps P (Floating op run).

Definition keeps {A} (P : list (string * gmap string ResponseData) -> Prop)
    (p : Promise A) : Prop :=
  forall h, P (caches h) ->
    P (caches (p h).1.2) /\ Forall (task_keeps P) (p h).2.

(** Bucket names are distinct. *)
Definition distinct_names (cs : list (string * gmap string ResponseData)) : Prop :=
  NoDup (CacheStorage.keys cs).

(** No bucket but the current one: the storage as activation leaves it. *)
Definition pruned (cs : list (string * gmap string ResponseData)) : Prop :=
  forall name, name ∈ CacheStorage.keys cs -> name = CACHE_NAME.

(** An event handled to the end: the listener, the registered promise, and
    the floating tasks for as long as the fuel lasts. *)
Definition handle (fuel : nat) (ev : Event) (h : Host) : Host :=
  let '(_, h1, ts) := dispatch ev h in (settle fuel ts h1).1.

(** Two hosts that differ at most in what was written to the console. *)
Definition same_but_console (h h' : Host) : Prop :=
  caches h' = caches h /\ network h' = network h /\ store h' = store h /\
  clients h' = clients h /\ focused h' = focused h /\
  openWindow_available h' = openWindow_available h /\
  notifications h' = notifications h /\ next_id h' = next_id h /\
  skip_waiting_flag h' = skip_waiting_flag h /\
  clients_claimed h' = clients_claimed h.

(** The payload asks for the waiting worker to take over: it is not null and
    its type field is the string SKIP_WAITING. *)
Definition asks_skip_waiting (d : JsValue) : Prop :=
  d <> JsNull /\ get_type d = Some (JsString "SKIP_WAITING").

(** The window clients of the host: what the click listener inspects. *)
Definition open_pages (h : Host) : list Client := List.filter is_window (clients h).


Definition chat_notification : Notification :=
  {| notification_id := 7; notification_title := "NeoChat";
     notification_options := push_options (Some "Hello") |}.

(** *** Sample hosts *)

Definition page (b : string) : ResponseData :=
  {| status := 200; statusText := "OK";
     headers := [("Content-Type", "text/html")]; body := b |}.

Definition home : ResponseData := page "<h1>NeoChat v10</h1>".

Definition old_home : ResponseData := page "<h1>NeoChat v9</h1>".

(** The start page served with a Vary header that names everything. *)
Definition varying_home : ResponseData :=
  {| status := 200; statusText := "OK";
     headers := [("Content-Type", "text/html"); ("Vary", "*")];
     body := "<h1>NeoChat v10</h1>" |}.

(** A partial answer. *)
Definition partial_home : ResponseData :=
  {| status := 206; statusText := "Partial Content";
     headers := [("Content-Type", "text/html")]; body := "<h1>Neo" |}.

(** A network that answers every request with the same response. *)
Definition serving (d : ResponseData) (r : Request) : option ResponseData := Some d.

(** A script that a browser extension put into a page of the application. *)
Definition extension_script : Request :=
  {| method := "GET"; url := "chrome-extension://neochat-helper/inject.js" |}.

Definition not_found : ResponseData :=
  {| status := 404; statusText := "Not Found"; headers := []; body := EmptyString |}.

Definition site : string := "https://neochat.example".

(** A network that serves the seed files and answers 404 to the rest. *)
Definition online (r : Request) : option ResponseData :=
  if bool_decide (url r ∈ resolve_url site <$> FILES_TO_CACHE)
  then Some home
  else Some not_found.

Definition offline (r : Request) : option ResponseData := None.

(** Two pages of the application as their clients report them. *)
Definition root_page : Client :=
  {| client_id := 1; client_type := WindowType;
     client_url := resolve_url site "/" |}.

Definition settings_page : Client :=
  {| client_id := 2; client_type := WindowType;
     client_url := resolve_url site "/settings" |}.

Definition host_with (cs : list (string * gmap string ResponseData))
    (net : Request -> option ResponseData) (cl : list Client) : Host :=
  {| origin := site; caches := cs; network := net;
     store := []; clients := cl; focused := None;
     openWindow_available := true; notifications := []; next_id := 10;
     skip_waiting_flag := false; clients_claimed := false; console := [] |}.

Definition get (path : string) : Request :=
  {| method := "GET"; url := resolve_url site path |}.

Definition post (path : string) : Request :=
  {| method := "POST"; url := resolve_url site path |}.

(** A storage in which a bucket of the previous version still holds a page. *)
Definition stale_storage : list (string * gmap string ResponseData) :=
  [("neochat-v9-cache",
    {[resolve_url site "/index.html" := old_home]});
   (CACHE_NAME, ∅)].

(** A sequence of events, each handled to the end with the given fuel. *)
Definition run (fuel : nat) (evs : list Event) (h : Host) : Host :=
  foldl (fun acc ev => handle fuel ev acc) h evs.

(** The events whose listener reaches the cache storage: install, activate,
    and fetch past its method guard. *)
Definition reaches_cache (ev : Event) : bool :=
  match ev with
  | InstallEvent | ActivateEvent => true
  | FetchEvent request => String.eqb (method request) "GET"
  | _ => false
  end.

(** The page that clients.openWindow('/') adds to the clients of a host. *)
Definition opened_root_page (h : Host) : Client :=
  {| client_id := next_id h; client_type := WindowType;
     client_url := resolve_url (origin h) "/" |}.

(** ** Cache storage lemmas *)

Section CacheStorageFacts.

Import CacheStorage.

Implicit Types (cs : list (string * gmap string ResponseData)) (name u : string).

Lemma bucket_app name cs cs' :
  bucket name (cs ++ cs') =
    match bucket name cs with Some b => Some b | None => bucket name cs' end.
Proof.
  induction cs as [|[n b] cs IH]; simpl; [done|].
  destruct (String.eqb n name); [done | apply IH].
Qed.

Lemma bucket_open name cs :
  bucket name (open name cs) = Some (default ∅ (bucket name cs)).
Proof.
  unfold open. destruct (bucket name cs) as [b|] eqn:E; simpl.
  - by rewrite E.
  - rewrite bucket_app, E. simpl. by rewrite String.eqb_refl.
Qed.

Lemma bucket_open_ne name name' cs :
  name <> name' -> bucket name' (open name cs) = bucket name' cs.
Proof.
  intros Hne. unfold open. destruct (bucket name cs); [done|].
  rewrite bucket_app. destruct (bucket name' cs); [done|]. simpl.
  destruct (String.eqb_spec name name'); [contradiction | done].
Qed.

Lemma bucket_update name f cs :
  bucket name (update name f cs) = f <$> bucket name cs.
Proof.
  induction cs as [|[n b] cs IH]; simpl; [done|].
  destruct (String.eqb n name) eqn:E; simpl; rewrite E; [done | apply IH].
Qed.

Lemma bucket_update_ne name name' f cs :
  name <> name' -> bucket name' (update name f cs) = bucket name' cs.
Proof.
  intros Hne. induction cs as [|[n b] cs IH]; simpl; [done|].
  destruct (String.eqb_spec n name) as [->|Hn]; simpl.
  - destruct (String.eqb_spec name name'); [contradiction | done].
  - destruct (String.eqb n name'); [done | apply IH].
Qed.

Lemma keys_update name f cs : keys (update name f cs) = keys cs.
Proof.
  unfold keys. induction cs as [|[n b] cs IH]; simpl; [done|].
  destruct (String.eqb n name); simpl; [done | f_equal; apply IH].
Qed.

Lemma remove_app name cs cs' :
  remove name (cs ++ cs') = remove name cs ++ remove name cs'.
Proof.
  induction cs as [|[n b] cs IH]; simpl; [done|].
  destruct (String.eqb n name); simpl; by rewrite IH.
Qed.

Lemma remove_open name cs : remove name (open name cs) = remove name cs.
Proof.
  unfold open. destruct (bucket name cs); [done|].
  rewrite remove_app. simpl. rewrite String.eqb_refl. apply app_nil_r.
Qed.

Lemma remove_filter name cs :
  remove name cs = List.filter (fun p => negb (String.eqb p.1 name)) cs.
Proof.
  induction cs as [|[n b] cs IH]; simpl; [done|].
  destruct (String.eqb n name); simpl; by rewrite IH.
Qed.

(** Writing a URL into a bucket makes the storage-wide search answer with
    the written content, unless another bucket holds the URL. *)
Lemma find_update_insert name u d cs :
  find u (remove name cs) = None ->
  is_Some (bucket name cs) ->
  find u (update name (fun b => <[u := d]> b) cs) = Some d.
Proof.
  induction cs as [|[n b] cs IH]; simpl; intros Hfind Hsome.
  - by destruct Hsome.
  - destruct (String.eqb n name) eqn:E; simpl.
    + by rewrite lookup_insert_eq.
    + simpl in Hfind. destruct (b !! u); [done|]. by apply IH.
Qed.

Lemma find_pruned u cs :
  pruned cs -> find u (remove CACHE_NAME cs) = None.
Proof.
  intros Hall. induction cs as [|[n b] cs IH]; simpl; [done|].
  assert (n = CACHE_NAME) as -> by (apply Hall; unfold keys; simpl; left).
  rewrite String.eqb_refl. apply IH. intros name Hin. apply Hall.
  unfold keys in *. simpl. by right.
Qed.

Lemma prune_filter names cs :
  prune names cs =
    List.filter (fun p => String.eqb p.1 CACHE_NAME || negb (bool_decide (p.1 ∈ names))) cs.
Proof.
  revert cs. induction names as [|n names IH]; intros cs; simpl.
  - induction cs as [|[m b] cs IHcs]; simpl; [done|].
    rewrite orb_true_r. by rewrite <- IHcs.
  - rewrite IH. clear IH. induction cs as [|[m b] cs IHcs].
    + by destruct (String.eqb n CACHE_NAME).
    + destruct (String.eqb_spec n CACHE_NAME) as [->|Hn].
      * simpl. simpl in IHcs. rewrite IHcs.
        destruct (String.eqb_spec m CACHE_NAME) as [->|Hm]; simpl; [done|].
        destruct (decide (m ∈ names)) as [Hin|Hin].
        -- rewrite (bool_decide_eq_true_2 _ Hin).
           rewrite bool_decide_eq_true_2; [done | by right].
        -- rewrite (bool_decide_eq_false_2 _ Hin).
           rewrite bool_decide_eq_false_2; [done|].
           intros [?|?]%elem_of_cons; congruence.
      * simpl. simpl in IHcs.
        destruct (String.eqb_spec m n) as [->|Hmn]; simpl.
        -- rewrite IHcs. destruct (String.eqb_spec n CACHE_NAME); [contradiction|].
           simpl. rewrite (bool_decide_eq_true_2 (n ∈ n :: names)); [done | by left].
        -- rewrite IHcs.
           destruct (String.eqb m CACHE_NAME); simpl; [done|].
           destruct (decide (m ∈ names)) as [Hin|Hin].
           ++ rewrite (bool_decide_eq_true_2 _ Hin).
              rewrite bool_decide_eq_true_2; [done | by right].
           ++ rewrite (bool_decide_eq_false_2 _ Hin).
              rewrite bool_decide_eq_false_2; [done|].
              intros [?|?]%elem_of_cons; congruence.
Qed.

Lemma prune_keys cs :
  prune (keys cs) cs = List.filter (fun p => String.eqb p.1 CACHE_NAME) cs.
Proof.
  rewrite prune_filter. apply List.filter_ext_in. intros [n b] Hin. simpl.
  rewrite bool_decide_eq_true_2; [by rewrite orb_false_r|].
  unfold keys. apply list_elem_of_fmap. exists (n, b). split; [done|].
  by apply list_elem_of_In.
Qed.

Lemma keys_filter_absent name cs :
  name ∉ keys cs -> List.filter (fun p => String.eqb p.1 name) cs = [].
Proof.
  unfold keys. induction cs as [|[n b] cs IH]; simpl; intros Hnot; [done|].
  destruct (String.eqb_spec n name) as [->|Hn].
  - exfalso. apply Hnot. by left.
  - apply IH. intros Hin. apply Hnot. by right.
Qed.

Lemma keys_filter_unique name cs :
  NoDup (keys cs) -> name ∈ keys cs ->
  keys (List.filter (fun p => String.eqb p.1 name) cs) = [name].
Proof.
  induction cs as [|[n b] cs IH]; simpl; intros Hnd Hin.
  - by apply elem_of_nil in Hin.
  - unfold keys in Hnd. simpl in Hnd. apply NoDup_cons in Hnd as [Hn Hnd].
    destruct (String.eqb_spec n name) as [->|Hne]; simpl.
    + unfold keys at 1. simpl. f_equal.
      by rewrite keys_filter_absent.
    + apply IH; [done|]. unfold keys in Hin. simpl in Hin.
      apply elem_of_cons in Hin as [?|?]; [congruence | done].
Qed.

Lemma bucket_filter_current name cs :
  bucket name (List.filter (fun p => String.eqb p.1 name) cs) = bucket name cs.
Proof.
  induction cs as [|[n b] cs IH]; simpl; [done|].
  destruct (String.eqb n name) eqn:E; simpl; [by rewrite E | apply IH].
Qed.

Lemma bucket_filter_other name name' cs :
  name <> name' ->
  bucket name' (List.filter (fun p => String.eqb p.1 name) cs) = None.
Proof.
  intros Hne. induction cs as [|[n b] cs IH]; simpl; [done|].
  destruct (String.eqb_spec n name) as [->|Hn]; simpl; [|done].
  destruct (String.eqb_spec name name'); [contradiction | done].
Qed.

End CacheStorageFacts.

(** The test for a Vary header with the star: the name in any case, the star
    anywhere among the members. *)
Example vary_star_recognised :
  varies_on_everything [("Content-Type", "text/html"); ("vary", "Accept-Encoding, *")] = true /\
  varies_on_everything [("Vary", "Accept-Encoding, Origin")] = false /\
  varies_on_everything [("Content-Type", "*/*")] = false.
Proof. by vm_compute. Qed.

Example storable_examples :
  storable "https://neochat.example/" home = true /\
  storable "http://localhost:3000/index.html" home = true /\
  storable "chrome-extension://neochat-helper/inject.js" home = false /\
  storable "https://neochat.example/" partial_home = false /\
  storable "https://neochat.example/" varying_home = false.
Proof. by vm_compute. Qed.

(** ** Running the host operations *)

Section Runs.

Implicit Types (h : Host) (request : Request) (r : Ref).

Lemma fetch_online h request d :
  network h request = Some d ->
  fetch request h =
    (Fulfilled (length (store h)), set_store (fun s => s ++ [fresh d]) h, []).
Proof. intros Hnet. unfold fetch. by rewrite Hnet. Qed.

Lemma fetch_offline h request :
  network h request = None -> fetch request h = (Rejected NetworkError, h, []).
Proof. intros Hnet. unfold fetch. by rewrite Hnet. Qed.

Lemma response_status_read h r o :
  store h !! r = Some o ->
  response_status r h = (Fulfilled (status (data o)), h, []).
Proof. intros Hr. unfold response_status. by rewrite Hr. Qed.

Lemma response_clone_unread h r o :
  store h !! r = Some o -> bodyUsed o = false ->
  response_clone r h =
    (Fulfilled (length (store h)), set_store (fun s => s ++ [fresh (data o)]) h, []).
Proof. intros Hr Hu. unfold response_clone. by rewrite Hr, Hu. Qed.

Lemma cache_put_accepts h cache request r o :
  method request = "GET" -> store h !! r = Some o ->
  storable (url request) (data o) = true -> bodyUsed o = false ->
  cache_put cache request r h =
    (Fulfilled tt,
     set_caches (CacheStorage.update cache (fun b => <[url request := data o]> b))
       (set_store (fun s => <[r := consumed o]> s) h),
     []).
Proof.
  intros Hm Hr Hst Hu. unfold cache_put. by rewrite Hm, Hr, Hst, Hu.
Qed.

Lemma cache_put_refuses h cache request r o :
  store h !! r = Some o -> storable (url request) (data o) = false ->
  cache_put cache request r h = (Rejected TypeError, h, []).
Proof.
  intros Hr Hst. unfold cache_put. rewrite Hr, Hst.
  by destruct (negb (String.eqb (method request) "GET")).
Qed.

Lemma store_alloc_new (s : list Response) (o : Response) :
  (s ++ [o]) !! length s = Some o.
Proof. by apply list_lookup_middle. Qed.

End Runs.

(** ** The fetch listener *)

Section Fetch.

Implicit Types (h : Host) (request : Request) (r : Ref) (d : ResponseData).

Lemma cache_if_ok_200 h request r d :
  store h !! r = Some (fresh d) -> status d = 200%Z ->
  cache_if_ok request r h =
    (Fulfilled r, set_store (fun s => s ++ [fresh d]) h,
     [floating (OpCacheOpen CACHE_NAME) (open_and_put request (length (store h)))]).
Proof.
  intros Hr Hst. unfold cache_if_ok, then_.
  rewrite (response_status_read _ _ _ Hr). simpl. rewrite Hst. simpl.
  by rewrite (response_clone_unread _ _ _ Hr eq_refl).
Qed.

Lemma cache_if_ok_other h request r d :
  store h !! r = Some (fresh d) -> status d <> 200%Z ->
  cache_if_ok request r h = (Fulfilled r, h, []).
Proof.
  intros Hr Hst. unfold cache_if_ok, then_.
  rewrite (response_status_read _ _ _ Hr). simpl.
  destruct (Z.eqb_spec (status d) 200); [contradiction | done].
Qed.

(** With the worker alive, the floating chain opens the bucket and then the
    floating put writes the entry, when the Cache interface takes it. *)
Lemma open_and_put_settles h request rc d :
  method request = "GET" -> store h !! rc = Some (fresh d) ->
  storable (url request) d = true ->
  settle 2 [floating (OpCacheOpen CACHE_NAME) (open_and_put request rc)] h =
    (set_caches
       (CacheStorage.update CACHE_NAME (fun b => <[url request := d]> b))
       (set_store (fun s => <[rc := consumed (fresh d)]> s)
          (set_caches (CacheStorage.open CACHE_NAME) h)), []).
Proof.
  intros Hm Hr Hst.
  cbn [settle floating app]. unfold open_and_put, then_, caches_open, detach.
  cbn [settle floating app].
  by rewrite (cache_put_accepts _ _ _ _ (fresh d) Hm).
Qed.

(** When it does not, the floating put is rejected and only the opening of
    the bucket has happened. *)
Lemma open_and_put_refused h request rc d :
  store h !! rc = Some (fresh d) -> storable (url request) d = false ->
  settle 2 [floating (OpCacheOpen CACHE_NAME) (open_and_put request rc)] h =
    (set_caches (CacheStorage.open CACHE_NAME) h, []).
Proof.
  intros Hr Hst.
  cbn [settle floating app]. unfold open_and_put, then_, caches_open, detach.
  cbn [settle floating app].
  by rewrite (cache_put_refuses _ _ _ _ (fresh d)).
Qed.

(** What the listener does with a GET request the network answers. *)
Lemma fetch_get_online h request d :
  method request = "GET" -> network h request = Some d ->
  dispatch (FetchEvent request) h =
    let '(res, h2, ts) :=
      cache_if_ok request (length (store h))
        (set_store (fun s => s ++ [fresh d]) h) in
    (Responded res, h2, ts).
Proof.
  intros Hm Hnet. unfold dispatch. simpl. unfold on_fetch. rewrite Hm. simpl.
  unfold catch_, then_. rewrite (fetch_online _ _ _ Hnet).
  destruct (cache_if_ok _ _ _) as [[[a|e] h2] ts] eqn:E; [done|].
  exfalso. revert E. unfold cache_if_ok, then_.
  rewrite (response_status_read _ _ (fresh d)) by apply store_alloc_new.
  simpl. destruct (status d =? 200)%Z; [|done].
  by rewrite (response_clone_unread _ _ (fresh d)) by (apply store_alloc_new || done).
Qed.

Lemma fetch_get_200 h request d :
  method request = "GET" -> network h request = Some d -> status d = 200%Z ->
  dispatch (FetchEvent request) h =
    (Responded (Fulfilled (length (store h))),
     set_store (fun s => s ++ [fresh d]) (set_store (fun s => s ++ [fresh d]) h),
     [floating (OpCacheOpen CACHE_NAME)
        (open_and_put request (S (length (store h))))]).
Proof.
  intros Hm Hnet Hst. rewrite (fetch_get_online _ _ _ Hm Hnet). simpl.
  rewrite (cache_if_ok_200 _ _ _ d) by (apply store_alloc_new || done).
  simpl. rewrite length_app. simpl. by rewrite Nat.add_1_r.
Qed.

Lemma fetch_get_not_200 h request d :
  method request = "GET" -> network h request = Some d -> status d <> 200%Z ->
  dispatch (FetchEvent request) h =
    (Responded (Fulfilled (length (store h))),
     set_store (fun s => s ++ [fresh d]) h, []).
Proof.
  intros Hm Hnet Hst. rewrite (fetch_get_online _ _ _ Hm Hnet). simpl.
  by rewrite (cache_if_ok_other _ _ _ d) by (apply store_alloc_new || done).
Qed.

(** The host once the floating write of a 200 response that the Cache
    interface takes has settled. *)
Lemma fetch_get_200_settled h request d :
  method request = "GET" -> network h request = Some d -> status d = 200%Z ->
  storable (url request) d = true ->
  exists h1 ts h2,
    dispatch (FetchEvent request) h = (Responded (Fulfilled (length (store h))), h1, ts) /\
    settle 2 ts h1 = (h2, []) /\
    caches h1 = caches h /\
    store h1 !! length (store h) = Some (fresh d) /\
    caches h2 =
      CacheStorage.update CACHE_NAME (fun b => <[url request := d]> b)
        (CacheStorage.open CACHE_NAME (caches h)) /\
    store h2 = store h ++ [fresh d; consumed (fresh d)].
Proof.
  intros Hm Hnet Hst Hok. eexists _, _, _.
  split; [by apply fetch_get_200|].
  split.
  { apply (open_and_put_settles _ _ _ d); [done| |done].
    simpl.
    replace (S (length (store h))) with (length (store h ++ [fresh d]))
      by (rewrite length_app; simpl; lia).
    apply store_alloc_new. }
  simpl. split; [done|]. split.
  { apply lookup_app_l_Some, store_alloc_new. }
  split; [done|].
  rewrite insert_app_r_alt by (rewrite length_app; simpl; lia).
  rewrite length_app. simpl.
  replace (S (length (store h)) - (length (store h) + 1))%nat with 0%nat by lia.
  simpl. by rewrite <- app_assoc.
Qed.

(** The host once the floating write of a 200 response that the Cache
    interface refuses has been rejected. *)
Lemma fetch_get_200_refused h request d :
  method request = "GET" -> network h request = Some d -> status d = 200%Z ->
  storable (url request) d = false ->
  exists h1 ts h2,
    dispatch (FetchEvent request) h = (Responded (Fulfilled (length (store h))), h1, ts) /\
    settle 2 ts h1 = (h2, []) /\
    store h1 !! length (store h) = Some (fresh d) /\
    caches h2 = CacheStorage.open CACHE_NAME (caches h) /\
    store h2 = store h ++ [fresh d; fresh d].
Proof.
  intros Hm Hnet Hst Hno. eexists _, _, _.
  split; [by apply fetch_get_200|].
  split.
  { apply (open_and_put_refused _ _ _ d); [|done].
    simpl.
    replace (S (length (store h))) with (length (store h ++ [fresh d]))
      by (rewrite length_app; simpl; lia).
    apply store_alloc_new. }
  simpl. split; [apply lookup_app_l_Some, store_alloc_new|].
  split; [done|]. by rewrite <- app_assoc.
Qed.

End Fetch.

Section FetchClaims.

Implicit Types (h : Host) (request : Request) (d : ResponseData).

Lemma caches_match_found h request d :
  method request = "GET" ->
  CacheStorage.find (url request) (caches h) = Some d ->
  caches_match request h =
    (Fulfilled (Some (length (store h))),
     set_store (fun s => s ++ [fresh d]) h, []).
Proof. intros Hm Hf. unfold caches_match. by rewrite Hm, Hf. Qed.

Lemma caches_match_missing h request :
  CacheStorage.find (url request) (caches h) = None ->
  caches_match request h = (Fulfilled None, h, []).
Proof.
  intros Hf. unfold caches_match. rewrite Hf.
  by destruct (String.eqb (method request) "GET").
Qed.

Lemma current_entry_written h request d :
  CacheStorage.bucket CACHE_NAME
    (CacheStorage.update CACHE_NAME (fun b => <[url request := d]> b)
       (CacheStorage.open CACHE_NAME (caches h))) ≫= (fun b => b !! url request)
  = Some d.
Proof.
  rewrite bucket_update, bucket_open. simpl. apply lookup_insert_eq.
Qed.

(** C1. For a GET request that the network answers, the listener responds
    with the very response object the fetch resolved with, and that object
    stays as the network delivered it, its body unread.  When the status is
    200 and the Cache interface takes the entry (an http or https URL, no
    Vary header with the star), the floating write, once settled, has put
    the content of the response into the current named cache under the
    request's URL, reading the body of a second object, the clone.  When the
    status is 200 and the Cache interface refuses the entry, the floating put
    is rejected: the current named cache has been opened and nothing was
    written.  With any other status nothing is left running and the cache
    storage is unchanged. *)
Theorem fetch_get_network_answer request h d :
  method request = "GET" -> network h request = Some d ->
  exists response hf h1 ts,
    fetch request h = (Fulfilled response, hf, []) /\
    store hf !! response = Some (fresh d) /\
    dispatch (FetchEvent request) h = (Responded (Fulfilled response), h1, ts) /\
    store h1 !! response = Some (fresh d) /\
    (status d = 200%Z -> storable (url request) d = true ->
       exists h2, settle 2 ts h1 = (h2, []) /\
         current_entry (url request) h2 = Some d /\
         store h2 !! response = Some (fresh d) /\
         store h2 !! S response = Some (consumed (fresh d))) /\
    (status d = 200%Z -> storable (url request) d = false ->
       exists h2, settle 2 ts h1 = (h2, []) /\
         caches h2 = CacheStorage.open CACHE_NAME (caches h) /\
         store h2 !! response = Some (fresh d)) /\
    (status d <> 200%Z -> ts = [] /\ caches h1 = caches h).
Proof.
  intros Hm Hnet.
  exists (length (store h)), (set_store (fun s => s ++ [fresh d]) h).
  destruct (decide (status d = 200%Z)) as [Hst|Hst].
  - destruct (storable (url request) d) eqn:Hok.
    + destruct (fetch_get_200_settled _ _ _ Hm Hnet Hst Hok)
        as (h1 & ts & h2 & Hd & Hs & Hc1 & Hr1 & Hc2 & Hs2).
      exists h1, ts. split; [by apply fetch_online|].
      split; [apply store_alloc_new|]. split; [done|]. split; [done|].
      split; [|split; [intros; discriminate | intros; contradiction]].
      intros _ _. exists h2. split; [done|]. unfold current_entry. rewrite Hc2, Hs2.
      split; [apply current_entry_written|]. split.
      * by apply (list_lookup_middle _ [consumed (fresh d)]).
      * replace (store h ++ [fresh d; consumed (fresh d)])
          with ((store h ++ [fresh d]) ++ [consumed (fresh d)])
          by (by rewrite <- app_assoc).
        apply list_lookup_middle. rewrite length_app. simpl. lia.
    + destruct (fetch_get_200_refused _ _ _ Hm Hnet Hst Hok)
        as (h1 & ts & h2 & Hd & Hs & Hr1 & Hc2 & Hs2).
      exists h1, ts. split; [by apply fetch_online|].
      split; [apply store_alloc_new|]. split; [done|]. split; [done|].
      split; [intros; discriminate|]. split; [|intros; contradiction].
      intros _ _. exists h2. split; [done|]. split; [done|].
      rewrite Hs2. by apply (list_lookup_middle _ [fresh d]).
  - exists (set_store (fun s => s ++ [fresh d]) h), [].
    split; [by apply fetch_online|].
    split; [apply store_alloc_new|].
    split; [by apply fetch_get_not_200|].
    split; [apply store_alloc_new|].
    split; [intros; contradiction|]. split; [intros; contradiction | done].
Qed.

Lemma fetch_get_network_answer_witness :
  exists response hf h1 ts,
    fetch (get "/index.html") (host_with [] online []) = (Fulfilled response, hf, []) /\
    store hf !! response = Some (fresh home) /\
    dispatch (FetchEvent (get "/index.html")) (host_with [] online [])
      = (Responded (Fulfilled response), h1, ts) /\
    store h1 !! response = Some (fresh home) /\
    (status home = 200%Z -> storable (url (get "/index.html")) home = true ->
       exists h2, settle 2 ts h1 = (h2, []) /\
         current_entry (url (get "/index.html")) h2 = Some home /\
         store h2 !! response = Some (fresh home) /\
         store h2 !! S response = Some (consumed (fresh home))) /\
    (status home = 200%Z -> storable (url (get "/index.html")) home = false ->
       exists h2, settle 2 ts h1 = (h2, []) /\
         caches h2 = CacheStorage.open CACHE_NAME (caches (host_with [] online [])) /\
         store h2 !! response = Some (fresh home)) /\
    (status home <> 200%Z -> ts = [] /\ caches h1 = caches (host_with [] online [])).
Proof.
  apply (fetch_get_network_answer (get "/index.html") (host_with [] online [])
           home); reflexivity.
Defined.

(** The claim without the condition on the entry fails.  A start page that
    comes back with status 200 and a Vary header with the star is handed to
    the page, but once the floating work has settled the current named
    cache holds no entry for it; the same holds for a script with the URL
    of a browser extension. *)
Lemma fetch_200_refused_by_cache :
  (let request := get "/index.html" in
   let h := host_with [] (serving varying_home) [] in
   method request = "GET" /\
   network h request = Some varying_home /\ status varying_home = 200%Z /\
   exists v h1 ts h2,
     dispatch (FetchEvent request) h = (v, h1, ts) /\
     settle 2 ts h1 = (h2, []) /\
     current_entry (url request) h2 = None) /\
  (let h := host_with [] (serving home) [] in
   method extension_script = "GET" /\
   network h extension_script = Some home /\ status home = 200%Z /\
   exists v h1 ts h2,
     dispatch (FetchEvent extension_script) h = (v, h1, ts) /\
     settle 2 ts h1 = (h2, []) /\
     current_entry (url extension_script) h2 = None).
Proof.
  split; cbv zeta; (split; [reflexivity|]); (split; [reflexivity|]);
    (split; [reflexivity|]); eexists _, _, _, _;
    (split; [reflexivity|]); (split; [reflexivity|]); vm_compute; reflexivity.
Qed.

(** What the listener does with a GET request when the fetch rejects. *)
Lemma fetch_get_offline h request :
  method request = "GET" -> network h request = None ->
  dispatch (FetchEvent request) h =
    (Responded (Fulfilled (length (store h))),
     set_store (fun s => s ++ [fresh (default offline_response
                  (CacheStorage.find (url request) (caches h)))]) h,
     []).
Proof.
  intros Hm Hnet. unfold dispatch. simpl. unfold on_fetch. rewrite Hm. simpl.
  unfold catch_ at 1, then_ at 1. rewrite (fetch_offline _ _ Hnet).
  unfold cached_or_offline, then_.
  destruct (CacheStorage.find (url request) (caches h)) as [d|] eqn:Hf.
  - by rewrite (caches_match_found _ _ _ Hm Hf).
  - by rewrite (caches_match_missing _ _ Hf).
Qed.

(** C2. For a GET request whose network fetch rejects, the listener looks
    the request up in the cache storage and always responds with a response
    object: the stored response when one is found, and otherwise a new one
    with status 503, status text 'Service Unavailable', the header
    Content-Type: text/plain and the fixed text; the respondWith promise is
    fulfilled, never rejected, and nothing is written to the cache. *)
Theorem fetch_get_network_failure request h :
  method request = "GET" -> network h request = None ->
  exists r h1 o,
    dispatch (FetchEvent request) h = (Responded (Fulfilled r), h1, []) /\
    store h1 !! r = Some o /\ bodyUsed o = false /\
    caches h1 = caches h /\
    match CacheStorage.find (url request) (caches h) with
    | Some d => data o = d
    | None =>
        status (data o) = 503%Z /\
        statusText (data o) = "Service Unavailable" /\
        headers (data o) = [("Content-Type", "text/plain")] /\
        body (data o) = "Offline - No cached response"
    end.
Proof.
  intros Hm Hnet. rewrite (fetch_get_offline _ _ Hm Hnet).
  eexists _, _, _. split; [reflexivity|]. split; [apply store_alloc_new|].
  split; [done|]. split; [done|].
  by destruct (CacheStorage.find (url request) (caches h)).
Qed.

Lemma fetch_get_network_failure_witness :
  exists r h1 o,
    dispatch (FetchEvent (get "/index.html")) (host_with stale_storage offline [])
      = (Responded (Fulfilled r), h1, []) /\
    store h1 !! r = Some o /\ bodyUsed o = false /\
    caches h1 = caches (host_with stale_storage offline []) /\
    match CacheStorage.find (url (get "/index.html"))
            (caches (host_with stale_storage offline [])) with
    | Some d => data o = d
    | None =>
        status (data o) = 503%Z /\
        statusText (data o) = "Service Unavailable" /\
        headers (data o) = [("Content-Type", "text/plain")] /\
        body (data o) = "Offline - No cached response"
    end.
Proof.
  apply (fetch_get_network_failure (get "/index.html")
           (host_with stale_storage offline [])); reflexivity.
Defined.

(** C5. For a request whose method is not GET the listener returns at once:
    it registers no response with the event, starts no operation, and leaves
    the whole host state, the cache storage included, as it was. *)
Theorem fetch_non_get_passes_through request h :
  method request <> "GET" ->
  registered (on_fetch request h) = NotRegistered /\
  started (on_fetch request h) = [] /\
  dispatch (FetchEvent request) h = (Unhandled, h, []).
Proof.
  intros Hm. unfold dispatch. simpl. unfold on_fetch.
  destruct (String.eqb_spec (method request) "GET"); [contradiction | done].
Qed.

Lemma fetch_non_get_passes_through_witness :
  registered (on_fetch (post "/api/send") (host_with stale_storage online [])) = NotRegistered /\
  started (on_fetch (post "/api/send") (host_with stale_storage online [])) = [] /\
  dispatch (FetchEvent (post "/api/send")) (host_with stale_storage online [])
    = (Unhandled, host_with stale_storage online [], []).
Proof.
  apply (fetch_non_get_passes_through (post "/api/send")
           (host_with stale_storage online [])).
  discriminate.
Defined.

End FetchClaims.

Section CacheRoundTrip.

Implicit Types (h : Host) (request : Request) (d : ResponseData).




(** A storage that holds no bucket but the current one satisfies the side
    condition of the round trip through caches.match. *)
Lemma pruned_storage_has_no_shadow h u :
  pruned (caches h) ->
  CacheStorage.find u (CacheStorage.remove CACHE_NAME (caches h)) = None.
Proof. apply find_pruned. Qed.

(** The side condition is needed: a bucket created before the current one
    answers caches.match first. *)
Example stale_bucket_shadows_fresh_entry :
  let request := get "/index.html" in
  let h2 := handle 2 (FetchEvent request) (host_with stale_storage online []) in
  current_entry (url request) h2 = Some home /\
  exists r h3,
    caches_match request h2 = (Fulfilled (Some r), h3, []) /\
    store h3 !! r = Some (fresh old_home).
Proof.
  vm_compute. split; [reflexivity|]. eexists _, _. split; reflexivity.
Qed.

End CacheRoundTrip.

(** ** The lifecycle listeners *)

Section Lifecycle.

Implicit Types (h : Host).

Lemma delete_if_stale_run cacheName h :
  exists v h1,
    delete_if_stale cacheName h = (Fulfilled v, h1, []) /\
    caches h1 = prune [cacheName] (caches h) /\
    network h1 = network h /\ store h1 = store h.
Proof.
  unfold delete_if_stale, prune. simpl.
  destruct (String.eqb cacheName CACHE_NAME); simpl.
  - by exists None, h.
  - by eexists _, _.
Qed.

Lemma prune_cons n names cs : prune (n :: names) cs = prune names (prune [n] cs).
Proof. done. Qed.

(** The deletions of an activation, one per enumerated name, all fulfil and
    leave the storage pruned by those names. *)
Lemma stale_deletions_run names h :
  exists l h1,
    Promise_all (delete_if_stale <$> names) h = (Fulfilled l, h1, []) /\
    caches h1 = prune names (caches h) /\
    network h1 = network h /\ store h1 = store h.
Proof.
  revert h. induction names as [|n names IH]; intros h.
  - by exists [], h.
  - destruct (delete_if_stale_run n h) as (v & h1 & Hrun & Hc & Hn & Hs).
    destruct (IH h1) as (l & h2 & Hall & Hc2 & Hn2 & Hs2).
    exists (v :: l), h2. rewrite fmap_cons. cbn [Promise_all].
    rewrite Hrun, Hall. simpl.
    rewrite Hc2, Hc, Hn2, Hs2. by rewrite prune_cons.
Qed.

(** Activation leaves the buckets named as the current one and deletes the
    rest. *)
Lemma activate_run h :
  exists h1,
    dispatch ActivateEvent h =
      (Extended (Fulfilled tt), h1, [floating OpClientsClaim clients_claim]) /\
    caches h1 =
      List.filter (fun p => String.eqb p.1 CACHE_NAME) (caches h) /\
    network h1 = network h /\ store h1 = store h.
Proof.
  unfold dispatch. simpl.
  unfold then_ at 1, caches_keys. cbn [caches log_line].
  destruct (stale_deletions_run (CacheStorage.keys (caches h))
              (log_line "[SW] Service Worker activated" h))
    as (l & h1 & Hall & Hc & Hn & Hs).
  unfold then_ at 1. rewrite Hall. simpl.
  exists h1. split; [done|]. rewrite Hc. simpl. by rewrite prune_keys.
Qed.

(** C3. When the storage holds a bucket under the current name at the start
    of activation (its names being distinct, as bucket names are), the
    waitUntil promise of the activate listener fulfils and afterwards
    enumerating the buckets yields the current name and nothing else: no
    bucket of another name is left, and the current bucket is as it was. *)
Theorem activate_keeps_only_current h :
  distinct_names (caches h) ->
  CACHE_NAME ∈ CacheStorage.keys (caches h) ->
  exists h1 ts,
    dispatch ActivateEvent h = (Extended (Fulfilled tt), h1, ts) /\
    CacheStorage.keys (caches h1) = [CACHE_NAME] /\
    (forall name, name <> CACHE_NAME -> CacheStorage.bucket name (caches h1) = None) /\
    CacheStorage.bucket CACHE_NAME (caches h1) = CacheStorage.bucket CACHE_NAME (caches h).
Proof.
  intros Hnd Hin. destruct (activate_run h) as (h1 & Hd & Hc & _).
  exists h1, [floating OpClientsClaim clients_claim]. split; [done|].
  rewrite Hc. split; [by apply keys_filter_unique|]. split.
  - intros name Hne. apply bucket_filter_other. congruence.
  - apply bucket_filter_current.
Qed.

Lemma activate_keeps_only_current_witness :
  exists h1 ts,
    dispatch ActivateEvent (host_with stale_storage online [])
      = (Extended (Fulfilled tt), h1, ts) /\
    CacheStorage.keys (caches h1) = [CACHE_NAME] /\
    (forall name, name <> CACHE_NAME -> CacheStorage.bucket name (caches h1) = None) /\
    CacheStorage.bucket CACHE_NAME (caches h1)
      = CacheStorage.bucket CACHE_NAME (caches (host_with stale_storage online [])).
Proof.
  apply (activate_keeps_only_current (host_with stale_storage online [])).
  - apply (bool_decide_unpack _). vm_compute. exact I.
  - apply (bool_decide_unpack _). vm_compute. exact I.
Defined.

End Lifecycle.

Section Install.

Implicit Types (h : Host) (net : Request -> option ResponseData).

Lemma put_seeds_lookup net paths l (b : gmap string ResponseData) p :
  fetch_seeds net paths = Some l ->
  put_seeds l b !! p =
    if decide (p ∈ paths) then fetch_seed net p else b !! p.
Proof.
  unfold fetch_seeds. intros Hl%mapM_Some_1. revert b.
  induction Hl as [|q [q' d] paths l Hq Hl IH]; intros b.
  - by rewrite decide_False by apply not_elem_of_nil.
  - unfold put_seeds in *. simpl. rewrite IH.
    destruct (fetch_seed net q) as [e|] eqn:Hfq; [|done].
    simpl in Hq. injection Hq as <- <-. simpl.
    destruct (decide (p ∈ paths)) as [Hin|Hin].
    + by rewrite decide_True by (by right).
    + destruct (decide (p = q)) as [->|Hne].
      * rewrite decide_True by (by left). by rewrite lookup_insert_eq.
      * rewrite decide_False by (intros [?|?]%elem_of_cons; done).
        by rewrite lookup_insert_ne.
Qed.

Lemma install_run h :
  dispatch InstallEvent h =
    let hA := log_line "[SW] Caching files..."
                (set_caches (CacheStorage.open CACHE_NAME)
                   (log_line "[SW] Installing Service Worker..." h)) in
    (Extended (Fulfilled tt),
     match fetch_seeds (network h) (resolve_url (origin h) <$> FILES_TO_CACHE) with
     | Some l => set_caches (CacheStorage.update CACHE_NAME (put_seeds l)) hA
     | None => log_line "[SW] Some files could not be cached" hA
     end,
     [floating OpSkipWaiting skipWaiting]).
Proof.
  unfold dispatch. cbn [listener on_install registered after_sync started].
  unfold then_, caches_open, console_log, catch_, cache_addAll.
  cbn [network origin log_line set_caches].
  by destruct (fetch_seeds (network h) _).
Qed.

(** C7. The install listener opens the current named cache, creating it
    when absent, and asks for every path of the seed list '/',
    '/index.html', '/service-worker.js', each resolved against the worker's
    origin.  Its waitUntil promise is fulfilled on every host, so
    installation never fails on account of the seeds: when all of them come
    back as cache.addAll wants them (fetched, with an ok status other than
    206 and no Vary header with the star) they are in the cache afterwards,
    and when one of them does not the rejection is caught, a line is written
    to the console and the cache is left as opened. *)
Theorem install_tolerates_seed_failure h :
  FILES_TO_CACHE = ["/"; "/index.html"; "/service-worker.js"] /\
  exists h1 ts,
    dispatch InstallEvent h = (Extended (Fulfilled tt), h1, ts) /\
    is_Some (CacheStorage.bucket CACHE_NAME (caches h1)) /\
    (Forall (fun p => is_Some (fetch_seed (network h) (resolve_url (origin h) p)))
       FILES_TO_CACHE ->
     forall p, p ∈ FILES_TO_CACHE ->
       current_entry (resolve_url (origin h) p) h1
         = fetch_seed (network h) (resolve_url (origin h) p)) /\
    (Exists (fun p => fetch_seed (network h) (resolve_url (origin h) p) = None)
       FILES_TO_CACHE ->
     caches h1 = CacheStorage.open CACHE_NAME (caches h) /\
     console h1 =
       console h ++ ["[SW] Installing Service Worker..."; "[SW] Caching files...";
                     "[SW] Some files could not be cached"]).
Proof.
  split; [done|]. rewrite install_run. cbv zeta. eexists _, _. split; [reflexivity|].
  destruct (fetch_seeds (network h) (resolve_url (origin h) <$> FILES_TO_CACHE))
    as [l|] eqn:Hseeds.
  - split; [|split].
    + cbn [caches set_caches log_line]. rewrite bucket_update, bucket_open. by eexists.
    + intros _ p Hp. unfold current_entry. cbn [caches set_caches log_line].
      rewrite bucket_update, bucket_open. simpl.
      rewrite (put_seeds_lookup _ _ _ _ _ Hseeds).
      rewrite decide_True; [done|]. by apply list_elem_of_fmap_2.
    + intros Hex. exfalso. unfold fetch_seeds in Hseeds.
      assert (is_Some (mapM (fun u => pair u <$> fetch_seed (network h) u)
                         (resolve_url (origin h) <$> FILES_TO_CACHE)))
        as Hsome%mapM_is_Some_1 by (by eexists).
      apply Exists_exists in Hex as (p & Hp & Hnone).
      rewrite Forall_fmap, Forall_forall in Hsome.
      specialize (Hsome p Hp). simpl in Hsome.
      rewrite Hnone in Hsome. by destruct Hsome.
  - split; [|split].
    + cbn [caches set_caches log_line]. rewrite bucket_open. by eexists.
    + intros Hall. exfalso. unfold fetch_seeds in Hseeds.
      apply mapM_None_1, Exists_fmap, Exists_exists in Hseeds as (p & Hp & Hnone).
      rewrite Forall_forall in Hall. destruct (Hall p Hp) as [d Hd].
      simpl in Hnone. by rewrite Hd in Hnone.
    + intros _. split; [done|]. cbn [console log_line set_caches].
      by rewrite <- !app_assoc.
Qed.

(** With no network at all the installation still completes, with an empty
    current cache and the failure on the console. *)
Example install_offline :
  exists h1 ts,
    dispatch InstallEvent (host_with [] offline []) = (Extended (Fulfilled tt), h1, ts) /\
    caches h1 = [(CACHE_NAME, ∅)] /\
    last (console h1) = Some "[SW] Some files could not be cached".
Proof. by eexists _, _. Qed.

(** Seeds that come back partial, or with a Vary header with the star, are
    failures too: nothing is stored and the failure is on the console. *)
Example install_refused_seeds :
  (exists h1 ts,
     dispatch InstallEvent (host_with [] (serving partial_home) [])
       = (Extended (Fulfilled tt), h1, ts) /\
     caches h1 = [(CACHE_NAME, ∅)] /\
     last (console h1) = Some "[SW] Some files could not be cached") /\
  (exists h1 ts,
     dispatch InstallEvent (host_with [] (serving varying_home) [])
       = (Extended (Fulfilled tt), h1, ts) /\
     caches h1 = [(CACHE_NAME, ∅)] /\
     last (console h1) = Some "[SW] Some files could not be cached").
Proof. split; by eexists _, _. Qed.

(** With the seeds served, a later offline request for the start page, as
    the browser sends it, is answered from the cache. *)
Example install_online_then_offline :
  let h1 := handle 1 InstallEvent (host_with [] online []) in
  exists r h2,
    dispatch (FetchEvent (get "/index.html")) (set_network offline h1)
      = (Responded (Fulfilled r), h2, []) /\
    store h2 !! r = Some (fresh home).
Proof. vm_compute. eexists _, _. split; reflexivity. Qed.

End Install.

(** ** The notification listeners *)

Section Notifications.

Implicit Types (h : Host) (n : Notification) (c : Client).

Lemma first_root_client_found (clientList : list Client) :
  (exists c, c ∈ clientList /\ client_url c = "/" /\ has_focus c = true) ->
  exists c, first_root_client clientList = Some c /\
            c ∈ clientList /\ client_url c = "/".
Proof.
  induction clientList as [|c0 rest IH]; intros (c & Hin & Hurl & Hf).
  - by apply elem_of_nil in Hin.
  - simpl. destruct (String.eqb_spec (client_url c0) "/") as [H0|H0].
    + destruct (has_focus c0) eqn:Hf0; simpl.
      * exists c0. split; [done|]. split; [by left | done].
      * apply elem_of_cons in Hin as [->|Hin]; [congruence|].
        destruct IH as (c' & ? & ? & ?); [by exists c|].
        exists c'. split; [done|]. split; [by right | done].
    + simpl. apply elem_of_cons in Hin as [->|Hin]; [congruence|].
      destruct IH as (c' & ? & ? & ?); [by exists c|].
      exists c'. split; [done|]. split; [by right | done].
Qed.

Lemma first_root_client_absent (clientList : list Client) :
  (forall c, c ∈ clientList -> client_url c <> "/") ->
  first_root_client clientList = None.
Proof.
  induction clientList as [|c0 rest IH]; intros Hall; simpl; [done|].
  destruct (String.eqb_spec (client_url c0) "/") as [H0|H0].
  - exfalso. apply (Hall c0); [by left | done].
  - simpl. apply IH. intros c Hc. apply Hall. by right.
Qed.

Lemma open_pages_have_focus h c : c ∈ open_pages h -> has_focus c = true.
Proof.
  unfold open_pages. intros Hc%list_elem_of_In%List.filter_In. by destruct Hc.
Qed.

Lemma notificationclick_run n h :
  dispatch (NotificationClickEvent n) h =
    let h0 := notification_close n (log_line "[SW] Notification clicked:" h) in
    let '(_, h1, _) := focus_or_open (open_pages h) h0 in
    (Extended (Fulfilled tt), h1, []).
Proof.
  unfold dispatch. cbn [listener on_notificationclick registered after_sync started].
  unfold then_ at 1, clients_matchAll_window. cbn [clients notification_close log_line set_notifications].
  unfold then_, focus_or_open, open_pages.
  destruct (first_root_client _); simpl; [done|].
  by destruct (openWindow_available h).
Qed.

(** What the listener does on a click.  It first closes the notification,
    in its synchronous body, and its waitUntil promise then does one of two
    things.  When a window client whose URL is the string '/' is there, one
    such client is focused and the list of clients is as before.  When none
    is, and the host provides clients.openWindow, the focus is as before and
    exactly one client is added, a window at the root of the origin. *)
Lemma notificationclick_outcome n h :
  exists h1,
    dispatch (NotificationClickEvent n) h = (Extended (Fulfilled tt), h1, []) /\
    (forall m, m ∈ notifications (after_sync (on_notificationclick n h)) ->
               notification_id m <> notification_id n) /\
    notifications h1 = notifications (after_sync (on_notificationclick n h)) /\
    ((exists c, c ∈ open_pages h /\ client_url c = "/") ->
     clients h1 = clients h /\
     exists c, c ∈ open_pages h /\ client_url c = "/" /\
               focused h1 = Some (client_id c)) /\
    ((forall c, c ∈ open_pages h -> client_url c <> "/") ->
     openWindow_available h = true ->
     focused h1 = focused h /\
     clients h1 =
       clients h ++ [{| client_id := next_id h; client_type := WindowType;
                        client_url := resolve_url (origin h) "/" |}]).
Proof.
  rewrite notificationclick_run. cbv zeta.
  assert (forall m,
    m ∈ notifications (after_sync (on_notificationclick n h)) ->
    notification_id m <> notification_id n) as Hclosed.
  { intros m. cbn [after_sync on_notificationclick notification_close
                   notifications set_notifications log_line].
    intros [_ Hm]%list_elem_of_In%List.filter_In.
    apply negb_true_iff, Nat.eqb_neq in Hm. done. }
  assert ((exists c, c ∈ open_pages h /\ client_url c = "/") ->
          exists c, first_root_client (open_pages h) = Some c /\
                    c ∈ open_pages h /\ client_url c = "/") as Hfound.
  { intros (c & Hc & Hurl). apply first_root_client_found.
    exists c. split; [done|]. split; [done|]. by apply (open_pages_have_focus h). }
  unfold focus_or_open.
  destruct (first_root_client (open_pages h)) as [c|] eqn:Hfirst.
  - eexists. split; [reflexivity|]. split; [done|]. split; [done|]. split.
    + intros Hex. split; [done|].
      destruct (Hfound Hex) as (c2 & Hc2 & Hin2 & Hurl2).
      exists c2. split; [done|]. split; [done|]. simpl. congruence.
    + intros Hnone. rewrite first_root_client_absent in Hfirst; done.
  - cbn [log_line notification_close set_notifications openWindow_available].
    destruct (openWindow_available h) eqn:Hopen.
    + eexists. split; [reflexivity|].
      split; [done|]. split; [done|]. split; [|done].
      intros Hex. destruct (Hfound Hex) as (c2 & Hc2 & _). congruence.
    + eexists. split; [reflexivity|].
      split; [done|]. split; [done|]. split; [|done].
      intros Hex. destruct (Hfound Hex) as (c2 & Hc2 & _). congruence.
Qed.


(** C8. A notificationclick while the root page of the application is open.
    The listener closes the notification, but the open root page is not
    brought to the foreground: its client reports the absolute URL
    https://neochat.example/, which is not the string '/' the listener
    compares with, so the loop finds nothing and a second page is opened at
    the root URL beside the first. *)
Theorem notificationclick_misses_open_root_page :
  let h := set_notifications (fun _ => [chat_notification])
             (host_with [] online [settings_page; root_page]) in
  root_page ∈ open_pages h /\
  client_url root_page = resolve_url (origin h) "/" /\
  exists h1 c,
    dispatch (NotificationClickEvent chat_notification) h
      = (Extended (Fulfilled tt), h1, []) /\
    notifications h1 = [] /\
    focused h1 = focused h /\
    clients h1 = [settings_page; root_page; c] /\
    client_url c = client_url root_page.
Proof.
  cbv zeta. split; [|split; [reflexivity|]].
  - apply elem_of_cons. right. apply elem_of_cons. by left.
  - eexists _, _. split; [reflexivity|]. repeat split; reflexivity.
Qed.

(** Two clicks in a row, with no page open at first: the second click does
    not find the page the first one opened, and opens another. *)
Example second_click_opens_second_page :
  let h := host_with [] online [] in
  let h1 := handle 0 (NotificationClickEvent chat_notification) h in
  let h2 := handle 0 (NotificationClickEvent chat_notification) h1 in
  client_url <$> clients h2 = [resolve_url site "/"; resolve_url site "/"] /\
  focused h2 = None.
Proof. by vm_compute. Qed.

(** Only a client whose URL is the bare string '/' is focused. *)
Example click_with_bare_slash_client :
  let bare := {| client_id := 3; client_type := WindowType; client_url := "/" |} in
  let h := set_notifications (fun _ => [chat_notification])
             (host_with [] online [settings_page; bare]) in
  exists h1,
    dispatch (NotificationClickEvent chat_notification) h
      = (Extended (Fulfilled tt), h1, []) /\
    notifications h1 = [] /\ focused h1 = Some 3%nat /\
    clients h1 = [settings_page; bare].
Proof. by eexists. Qed.

(** A click while only another page is open opens one window at the root. *)
Example click_without_root_page :
  let h := set_notifications (fun _ => [chat_notification])
             (host_with [] online [settings_page]) in
  exists h1,
    dispatch (NotificationClickEvent chat_notification) h
      = (Extended (Fulfilled tt), h1, []) /\
    notifications h1 = [] /\ focused h1 = None /\
    clients h1 = [settings_page;
                  {| client_id := 10; client_type := WindowType;
                     client_url := resolve_url site "/" |}].
Proof. by eexists. Qed.

(** C10. On a push event the listener displays one notification, titled
    NeoChat: its body is the text of the payload when the event carries
    one and the fixed default message otherwise, and its tag is always
    'neochat-notification', so that it takes the place of the notifications
    displayed under that tag. *)
Theorem push_displays_notification (payload : option string) h :
  exists h1 n,
    dispatch (PushEvent payload) h = (Extended (Fulfilled tt), h1, []) /\
    notifications h1 =
      List.filter (fun m => negb (same_tag "neochat-notification" m)) (notifications h)
      ++ [n] /\
    notification_title n = "NeoChat" /\
    opt_body (notification_options n) =
      match payload with
      | Some text => text
      | None => "Новое сообщение в NeoChat"
      end /\
    opt_tag (notification_options n) = "neochat-notification".
Proof. by eexists _, _. Qed.

Example push_hello :
  exists h1 n,
    dispatch (PushEvent (Some "Hello")) (host_with [] online []) =
      (Extended (Fulfilled tt), h1, []) /\
    notifications h1 = [n] /\ opt_body (notification_options n) = "Hello".
Proof. by eexists _, _. Qed.

End Notifications.

(** ** The message listener *)

Section Messages.

Implicit Types (h : Host) (d : JsValue).

Lemma strict_eq_string_true (v : JsValue) (s : string) :
  strict_eq_string v s = true <-> v = JsString s.
Proof.
  destruct v; simpl; try (split; [discriminate | congruence]).
  rewrite String.eqb_eq. split; congruence.
Qed.

Lemma is_skip_waiting_total d : is_skip_waiting d <> None.
Proof. unfold is_skip_waiting. by destruct d as [| |[]| | |]; simpl; try destruct (negb _). Qed.

Lemma is_skip_waiting_spec d :
  is_skip_waiting d = Some true <-> asks_skip_waiting d.
Proof.
  unfold is_skip_waiting, asks_skip_waiting.
  destruct d as [| |b|z|s|fs]; simpl.
  - split; [discriminate | by intros [_ ?]].
  - split; [discriminate | by intros [? _]].
  - destruct b; (split; [discriminate | by intros [_ ?]]).
  - destruct (negb (z =? 0)%Z); (split; [discriminate | by intros [_ ?]]).
  - destruct (negb (String.eqb s EmptyString)); (split; [discriminate | by intros [_ ?]]).
  - split.
    + intros [= H%strict_eq_string_true]. split; [done | by rewrite H].
    + intros [_ [= H]]. by rewrite H.
Qed.

(** C9. On a message event the listener starts skipWaiting exactly when the
    payload is not null and its type field is 'SKIP_WAITING'; once started,
    skipWaiting sets the worker's skip-waiting flag.  For every other
    payload, null and payloads without a type field included, evaluating
    the condition throws nothing, nothing is started or registered, and the
    host is left as it was apart from the console line that every message
    gets. *)
Theorem message_skip_waiting_only d h :
  thrown (on_message d h) = None /\
  (In OpSkipWaiting (task_op <$> started (on_message d h)) <-> asks_skip_waiting d) /\
  (asks_skip_waiting d ->
   exists h1 ts h2,
     dispatch (MessageEvent d) h = (Unhandled, h1, ts) /\
     settle 1 ts h1 = (h2, []) /\ skip_waiting_flag h2 = true) /\
  (~ asks_skip_waiting d ->
   exists h1,
     dispatch (MessageEvent d) h = (Unhandled, h1, []) /\ same_but_console h h1).
Proof.
  pose proof (is_skip_waiting_spec d) as Hspec.
  pose proof (is_skip_waiting_total d) as Htotal.
  unfold dispatch. cbn [listener]. unfold on_message.
  destruct (is_skip_waiting d) as [[|]|]; [| |done]; simpl.
  - split; [done|]. split; [split; [intros _; by apply Hspec | by left]|].
    split; [|intros Hn; exfalso; apply Hn; by apply Hspec].
    intros _. by eexists _, _, _.
  - assert (~ asks_skip_waiting d) as Hnot by (intros H%Hspec; done).
    split; [done|]. split; [split; [by intros [] | done]|].
    split; [done|]. intros _. eexists. split; [reflexivity|].
    unfold same_but_console. simpl. done.
Qed.

Example message_null_ignored :
  dispatch (MessageEvent JsNull) (host_with [] online []) =
    (Unhandled, log_line "[SW] Message received:" (host_with [] online []), []).
Proof. reflexivity. Qed.

Example message_skip_waiting_accepted :
  task_op <$> (dispatch
     (MessageEvent (JsObject [("type", JsString "SKIP_WAITING")]))
     (host_with [] online [])).2 = [OpSkipWaiting].
Proof. reflexivity. Qed.

End Messages.

(** ** The storage across events *)

Create HintDb keeps.

Section StorageInvariants.

Import CacheStorage.

Variable P : list (string * gmap string ResponseData) -> Prop.
Hypothesis P_stable : stable P.

Lemma keeps_resolve {A} (a : A) : keeps P (resolve a).
Proof. by intros h HP. Qed.

Lemma keeps_then {A B} (p : Promise A) (f : A -> Promise B) :
  keeps P p -> (forall a, keeps P (f a)) -> keeps P (then_ p f).
Proof.
  intros Hp Hf h HP. unfold then_.
  destruct (Hp h HP) as [HP1 Hts1].
  destruct (p h) as [[[a|e] h1] ts1]; simpl in *; [|done].
  destruct (Hf a h1 HP1) as [HP2 Hts2].
  destruct (f a h1) as [[r h2] ts2]; simpl in *.
  split; [done | by apply Forall_app].
Qed.

Lemma keeps_catch {A} (p : Promise A) (g : JsError -> Promise A) :
  keeps P p -> (forall e, keeps P (g e)) -> keeps P (catch_ p g).
Proof.
  intros Hp Hg h HP. unfold catch_.
  destruct (Hp h HP) as [HP1 Hts1].
  destruct (p h) as [[[a|e] h1] ts1]; simpl in *; [done|].
  destruct (Hg e h1 HP1) as [HP2 Hts2].
  destruct (g e h1) as [[r h2] ts2]; simpl in *.
  split; [done | by apply Forall_app].
Qed.

Lemma floating_keeps {A} op (p : Promise A) : keeps P p -> task_keeps P (floating op p).
Proof.
  intros Hp. constructor. intros h HP. destruct (Hp h HP) as [HP1 Hts].
  by destruct (p h) as [[[a|e] h1] ts].
Qed.

Lemma keeps_detach {A} op (p : Promise A) : keeps P p -> keeps P (detach op p).
Proof.
  intros Hp h HP. split; [done|]. apply Forall_singleton. by apply floating_keeps.
Qed.

Lemma keeps_Promise_all {A} (ps : list (Promise A)) :
  Forall (keeps P) ps -> keeps P (Promise_all ps).
Proof.
  induction 1 as [|p ps Hp _ IH]; [apply keeps_resolve|].
  intros h HP. cbn [Promise_all].
  destruct (Hp h HP) as [HP1 Hts1]. destruct (p h) as [[r h1] ts1]. simpl in *.
  destruct (IH h1 HP1) as [HP2 Hts2].
  destruct (Promise_all ps h1) as [[rs h2] ts2]. simpl in *.
  split; [done | by apply Forall_app].
Qed.

(** Operations that leave the storage alone. *)
Lemma keeps_same_caches {A} (p : Promise A) :
  (forall h, caches (p h).1.2 = caches h /\ (p h).2 = []) -> keeps P p.
Proof. intros Hp h HP. destruct (Hp h) as [-> ->]. done. Qed.

Lemma keeps_console_log msg : keeps P (console_log msg).
Proof. by apply keeps_same_caches. Qed.

Lemma keeps_fetch request : keeps P (fetch request).
Proof.
  apply keeps_same_caches. intros h. unfold fetch. by destruct (network h request).
Qed.

Lemma keeps_response_status r : keeps P (response_status r).
Proof.
  apply keeps_same_caches. intros h. unfold response_status. by destruct (store h !! r).
Qed.

Lemma keeps_response_clone r : keeps P (response_clone r).
Proof.
  apply keeps_same_caches. intros h. unfold response_clone.
  destruct (store h !! r) as [o|]; [|done]. by destruct (bodyUsed o).
Qed.

Lemma keeps_new_Response b st t hs : keeps P (new_Response b st t hs).
Proof. by apply keeps_same_caches. Qed.

Lemma keeps_caches_match request : keeps P (caches_match request).
Proof.
  apply keeps_same_caches. intros h. unfold caches_match.
  destruct (String.eqb _ _); [|done]. by destruct (find _ _).
Qed.

Lemma keeps_caches_keys : keeps P caches_keys.
Proof. by apply keeps_same_caches. Qed.

Lemma keeps_caches_open : keeps P (caches_open CACHE_NAME).
Proof. intros h HP. split; [|done]. simpl. by apply P_stable. Qed.

Lemma keeps_caches_delete name : keeps P (caches_delete name).
Proof. intros h HP. split; [|done]. simpl. by apply P_stable. Qed.

Lemma keeps_cache_put cache request r : keeps P (cache_put cache request r).
Proof.
  intros h HP. unfold cache_put. destruct (negb _); [done|].
  destruct (store h !! r) as [o|]; [|done].
  destruct (_ || _); [done|]. split; [|done]. simpl. by apply P_stable.
Qed.

Lemma keeps_cache_addAll cache paths : keeps P (cache_addAll cache paths).
Proof.
  intros h HP. unfold cache_addAll. destruct (fetch_seeds _ _); [|done].
  split; [|done]. simpl. by apply P_stable.
Qed.

Lemma keeps_skipWaiting : keeps P skipWaiting.
Proof. by apply keeps_same_caches. Qed.

Lemma keeps_clients_claim : keeps P clients_claim.
Proof. by apply keeps_same_caches. Qed.

Lemma keeps_showNotification title options : keeps P (showNotification title options).
Proof. by apply keeps_same_caches. Qed.

Lemma keeps_focus_or_open clientList : keeps P (focus_or_open clientList).
Proof.
  apply keeps_same_caches. intros h. unfold focus_or_open.
  destruct (first_root_client clientList); [done|].
  by destruct (openWindow_available h).
Qed.

#[local] Hint Resolve keeps_resolve keeps_console_log keeps_fetch keeps_response_status
  keeps_response_clone keeps_new_Response keeps_caches_match keeps_caches_keys
  keeps_caches_open keeps_caches_delete keeps_cache_put keeps_cache_addAll
  keeps_skipWaiting keeps_clients_claim keeps_showNotification
  keeps_focus_or_open floating_keeps : keeps.

Ltac keeps_step :=
  first [ apply keeps_then; [|intros ?]
        | apply keeps_catch; [|intros ?]
        | apply keeps_detach
        | solve [eauto with keeps] ].

(** What a listener registers and what it starts keeps the property. *)
Lemma listener_keeps ev h :
  P (caches h) ->
  P (caches (after_sync (listener ev h))) /\
  Forall (task_keeps P) (started (listener ev h)) /\
  match registered (listener ev h) with
  | NotRegistered => True
  | WaitUntil p => keeps P p
  | RespondWith p => keeps P p
  end.
Proof.
  intros HP. destruct ev as [| |request|payload|n|d]; simpl.
  - split; [done|]. split; [apply Forall_singleton; eauto with keeps|].
    repeat keeps_step.
  - split; [done|]. split; [apply Forall_singleton; eauto with keeps|].
    keeps_step; [eauto with keeps|]. keeps_step; [|eauto with keeps].
    apply keeps_Promise_all, Forall_fmap, Forall_forall. intros name _.
    simpl. unfold delete_if_stale. destruct (negb _); repeat keeps_step.
  - unfold on_fetch. destruct (negb _); simpl; [done|].
    split; [done|]. split; [done|].
    keeps_step.
    + keeps_step; [eauto with keeps|]. unfold cache_if_ok.
      keeps_step; [eauto with keeps|]. keeps_step; [|eauto with keeps].
      destruct (_ =? _)%Z; [|eauto with keeps].
      keeps_step; [eauto with keeps|]. keeps_step. unfold open_and_put.
      repeat keeps_step.
    + unfold cached_or_offline. keeps_step; [eauto with keeps|].
      destruct a; eauto with keeps.
  - split; [done|]. split; [done|]. eauto with keeps.
  - split; [done|]. split; [done|].
    keeps_step; [by apply keeps_same_caches|]. repeat keeps_step.
  - unfold on_message. destruct (is_skip_waiting d) as [[|]|]; simpl;
      (split; [done|]); (split; [|done]); [|done..].
    apply Forall_singleton. eauto with keeps.
Qed.

Lemma dispatch_keeps ev h :
  P (caches h) ->
  P (caches (dispatch ev h).1.2) /\ Forall (task_keeps P) (dispatch ev h).2.
Proof.
  intros HP. destruct (listener_keeps ev h HP) as (Hsync & Hstarted & Hreg).
  unfold dispatch. destruct (registered (listener ev h)) as [|p|p]; [done| |].
  - destruct (Hreg _ Hsync) as [HP1 Hts].
    destruct (p _) as [[res h1] ts]. simpl in *. split; [done | by apply Forall_app].
  - destruct (Hreg _ Hsync) as [HP1 Hts].
    destruct (p _) as [[res h1] ts]. simpl in *. split; [done | by apply Forall_app].
Qed.

Lemma settle_keeps fuel ts h :
  P (caches h) -> Forall (task_keeps P) ts ->
  P (caches (settle fuel ts h).1) /\ Forall (task_keeps P) (settle fuel ts h).2.
Proof.
  revert ts h. induction fuel as [|fuel IH]; intros ts h HP Hts.
  - by destruct ts.
  - destruct ts as [|[op run] rest]; [done|]. simpl.
    apply Forall_cons in Hts as [Ht Hrest]. inversion Ht as [? ? Hrun]; subst.
    destruct (Hrun h HP) as [HP1 Hnew].
    destruct (run h) as [[res h1] new]. simpl in *.
    apply IH; [done | by apply Forall_app].
Qed.

Lemma handle_keeps fuel ev h : P (caches h) -> P (caches (handle fuel ev h)).
Proof.
  intros HP. unfold handle. destruct (dispatch_keeps ev h HP) as [HP1 Hts].
  destruct (dispatch ev h) as [[v h1] ts]. simpl in *.
  by apply settle_keeps.
Qed.

End StorageInvariants.

Section StableProperties.

Import CacheStorage.

Implicit Types (cs : list (string * gmap string ResponseData)) (name : string).

Lemma bucket_absent name cs : bucket name cs = None -> name ∉ keys cs.
Proof.
  unfold keys. induction cs as [|[n b] cs IH]; simpl; intros Hb.
  - apply not_elem_of_nil.
  - destruct (String.eqb_spec n name) as [->|Hn]; [done|].
    intros [?|?]%elem_of_cons; [congruence | by apply IH].
Qed.

Lemma bucket_present name cs : is_Some (bucket name cs) -> name ∈ keys cs.
Proof.
  unfold keys. induction cs as [|[n b] cs IH]; simpl; intros Hb.
  - by destruct Hb.
  - destruct (String.eqb_spec n name) as [->|Hn]; [by left|].
    right. by apply IH.
Qed.

Lemma keys_open name cs :
  (keys (open name cs) = keys cs) \/
  ((name ∉ keys cs) /\ keys (open name cs) = keys cs ++ [name]).
Proof.
  unfold open. destruct (bucket name cs) eqn:Hb; [by left|].
  right. split; [by apply bucket_absent|]. unfold keys. by rewrite fmap_app.
Qed.

Lemma keys_remove name name' cs : name' ∈ keys (remove name cs) -> name' ∈ keys cs.
Proof.
  unfold keys. induction cs as [|[n b] cs IH]; simpl; [done|].
  destruct (String.eqb n name); simpl.
  - intros H. right. by apply IH.
  - intros [->|H]%elem_of_cons; [by left | right; by apply IH].
Qed.

Lemma distinct_names_stable : stable distinct_names.
Proof.
  unfold distinct_names. split; [|split].
  - intros cs Hnd. destruct (keys_open CACHE_NAME cs) as [->|[Hnot ->]]; [done|].
    apply NoDup_app. split; [done|]. split; [|apply NoDup_singleton].
    intros x Hx ->%list_elem_of_singleton. done.
  - intros name f cs Hnd. by rewrite keys_update.
  - intros name cs. induction cs as [|[n b] cs IH]; simpl; [done|].
    unfold keys. simpl. intros [Hn Hnd]%NoDup_cons.
    destruct (String.eqb n name); [by apply IH|].
    simpl. apply NoDup_cons. split; [|by apply IH].
    intros Hin. apply Hn. by apply (keys_remove name).
Qed.

Lemma pruned_stable : stable pruned.
Proof.
  unfold pruned. split; [|split].
  - intros cs Hp name. destruct (keys_open CACHE_NAME cs) as [->|[_ ->]]; [apply Hp|].
    intros [?|Hs]%elem_of_app; [by apply Hp|].
    by apply list_elem_of_singleton in Hs.
  - intros name f cs Hp name'. rewrite keys_update. apply Hp.
  - intros name cs Hp name' Hin. apply Hp. by apply (keys_remove name).
Qed.

(** Whatever the event and however long the worker lives after it, bucket
    names stay distinct and a pruned storage stays pruned. *)
Lemma handle_keeps_distinct_names fuel ev h :
  distinct_names (caches h) -> distinct_names (caches (handle fuel ev h)).
Proof. apply handle_keeps, distinct_names_stable. Qed.

Lemma handle_keeps_pruned fuel ev h :
  pruned (caches h) -> pruned (caches (handle fuel ev h)).
Proof. apply handle_keeps, pruned_stable. Qed.

End StableProperties.

(** ** From one event to the next *)

Section AcrossEvents.

Import CacheStorage.

Implicit Types (h : Host) (request : Request) (d : ResponseData).

(** Installation leaves a bucket under the current name. *)
Lemma install_creates_current h :
  CACHE_NAME ∈ keys (caches (dispatch InstallEvent h).1.2).
Proof.
  rewrite install_run. cbv zeta. cbn [fst snd].
  assert (CACHE_NAME ∈ keys (open CACHE_NAME (caches h))) as Hin.
  { apply bucket_present. rewrite bucket_open. by eexists. }
  destruct (fetch_seeds (network h) _); cbn [caches set_caches log_line].
  - by rewrite keys_update.
  - done.
Qed.

(** X11. A new version that installs and then activates is left with its
    own bucket only, whatever the storage held before. *)
Lemma install_then_activate h :
  distinct_names (caches h) ->
  keys (caches (dispatch ActivateEvent (dispatch InstallEvent h).1.2).1.2)
    = [CACHE_NAME].
Proof.
  intros Hnd.
  destruct (dispatch_keeps _ distinct_names_stable InstallEvent h Hnd) as [Hnd1 _].
  pose proof (install_creates_current h) as Hin.
  destruct (activate_run (dispatch InstallEvent h).1.2) as (h2 & -> & Hc & _).
  simpl. rewrite Hc. by apply keys_filter_unique.
Qed.

(** X7. In a pruned storage, a page that was fetched while online with
    status 200, and that the Cache interface takes (an http or https URL, no
    Vary header with the star), is what the listener answers with when the
    same request is made offline. *)
Lemma offline_after_online request h d :
  method request = "GET" -> network h request = Some d -> status d = 200%Z ->
  storable (url request) d = true ->
  pruned (caches h) ->
  exists r h3,
    dispatch (FetchEvent request)
      (set_network offline (handle 2 (FetchEvent request) h))
      = (Responded (Fulfilled r), h3, []) /\
    data <$> store h3 !! r = Some d.
Proof.
  intros Hm Hnet Hst Hok Hpr.
  destruct (fetch_get_200_settled _ _ _ Hm Hnet Hst Hok)
    as (h1 & ts & h2 & Hd & Hs & _ & _ & Hc2 & _).
  unfold handle. rewrite Hd, Hs. cbn [fst].
  rewrite fetch_get_offline by done.
  eexists _, _. split; [reflexivity|].
  cbn [store set_store set_network caches]. rewrite store_alloc_new. simpl.
  rewrite Hc2, find_update_insert; [done| |].
  - rewrite remove_open. by apply find_pruned.
  - rewrite bucket_open. by eexists.
Qed.

(** In a pruned storage the search of caches.match is the lookup in the
    current named cache. *)
Lemma find_in_pruned_storage u (cs : list (string * gmap string ResponseData)) :
  pruned cs -> distinct_names cs ->
  find u cs = bucket CACHE_NAME cs ≫= (fun b => b !! u).
Proof.
  unfold pruned, distinct_names, keys.
  destruct cs as [|[n b] rest]; [done|]. simpl. intros Hpr [Hn _]%NoDup_cons.
  assert (n = CACHE_NAME) as -> by (apply Hpr; by left).
  rewrite String.eqb_refl. simpl.
  destruct rest as [|[n' b'] rest]; [by destruct (b !! u)|].
  exfalso. apply Hn. simpl. rewrite (Hpr n') by (right; by left). by left.
Qed.

End AcrossEvents.

(** ** Work the events do not wait for *)

Section PendingWork.

(** C6. The fetch listener does not hand all of its asynchronous work to the
    event.  For a GET request answered with status 200 on a host with an
    empty storage, the respondWith promise has settled and the event is
    over, yet the cache storage is still untouched: opening the cache is a
    floating task, and running it leaves the cache write as a further
    floating task.  Neither was registered through waitUntil or
    respondWith. *)
Theorem fetch_cache_write_is_floating :
  exists r h1 t,
    dispatch (FetchEvent (get "/index.html")) (host_with [] online [])
      = (Responded (Fulfilled r), h1, [t]) /\
    task_op t = OpCacheOpen CACHE_NAME /\
    caches h1 = [] /\
    (exists h2 t2,
       settle 1 [t] h1 = (h2, [t2]) /\
       task_op t2 = OpCachePut CACHE_NAME (get "/index.html") (S r) /\
       current_entry (url (get "/index.html")) h2 = None) /\
    ~ all_work_registered (FetchEvent (get "/index.html")) (host_with [] online []).
Proof.
  eexists _, _, _. split; [reflexivity|]. split; [reflexivity|].
  split; [reflexivity|]. split.
  - eexists _, _. split; [reflexivity|]. split; reflexivity.
  - unfold all_work_registered. discriminate.
Qed.

(** On every host, a 200 answer to a GET request ends the event with the
    cache storage as it was and one floating task. *)
Lemma fetch_200_leaves_floating_work (request : Request) (h : Host) (d : ResponseData) :
  method request = "GET" -> network h request = Some d -> status d = 200%Z ->
  ~ all_work_registered (FetchEvent request) h /\
  caches (dispatch (FetchEvent request) h).1.2 = caches h.
Proof.
  intros Hm Hnet Hst. unfold all_work_registered.
  by rewrite (fetch_get_200 _ _ _ Hm Hnet Hst).
Qed.

(** The push and notificationclick listeners register everything. *)
Lemma push_registers_all payload h : all_work_registered (PushEvent payload) h.
Proof. reflexivity. Qed.

Lemma notificationclick_registers_all n h :
  all_work_registered (NotificationClickEvent n) h.
Proof.
  unfold all_work_registered, dispatch. simpl.
  unfold then_, clients_matchAll_window, focus_or_open.
  destruct (first_root_client _); simpl; [done|].
  by destruct (openWindow_available _).
Qed.

(** The lifecycle listeners leave no cache operation floating: what is not
    registered there is the call of skipWaiting, respectively of
    clients.claim. *)
Lemma install_floating h : task_op <$> (dispatch InstallEvent h).2 = [OpSkipWaiting].
Proof. by rewrite install_run. Qed.

Lemma activate_floating h : task_op <$> (dispatch ActivateEvent h).2 = [OpClientsClaim].
Proof. by destruct (activate_run h) as (h1 & -> & _). Qed.

End PendingWork.

(** ** Further properties of the listeners *)

Section Sequences.

Implicit Types (h : Host) (evs : list Event).

Lemma settle_nil fuel h : settle fuel [] h = (h, []).
Proof. by destruct fuel. Qed.

Lemma run_snoc fuel evs ev h :
  run fuel (evs ++ [ev]) h = handle fuel ev (run fuel evs h).
Proof. unfold run. by rewrite foldl_app. Qed.

(** Bucket names that are distinct stay distinct through any sequence of
    events: the storage operations keep them so. *)
Lemma run_keeps_distinct_names fuel evs h :
  distinct_names (caches h) -> distinct_names (caches (run fuel evs h)).
Proof.
  intros Hd. induction evs as [|ev evs IH] using rev_ind; [done|].
  rewrite run_snoc. by apply handle_keeps_distinct_names.
Qed.

(** X2. A storage that holds no bucket but the current one stays so through
    any sequence of events: no listener ever creates a bucket under another
    name. *)
Theorem run_keeps_pruned fuel evs h :
  pruned (caches h) -> pruned (caches (run fuel evs h)).
Proof.
  intros Hp. induction evs as [|ev evs IH] using rev_ind; [done|].
  rewrite run_snoc. by apply handle_keeps_pruned.
Qed.

Lemma run_keeps_pruned_witness :
  pruned
    (caches (run 2 [InstallEvent; FetchEvent (get "/index.html");
                    PushEvent None; ActivateEvent]
               (host_with [] online []))).
Proof.
  apply (run_keeps_pruned 2
           [InstallEvent; FetchEvent (get "/index.html"); PushEvent None; ActivateEvent]
           (host_with [] online [])).
  intros name Hin. by apply elem_of_nil in Hin.
Defined.

(** X3. Only install, activate and GET fetches reach the cache storage: a
    push, a notificationclick, a message or a fetch with another method
    leaves every bucket as it was, whatever the payload and however long the
    worker lives. *)
Theorem other_events_leave_caches fuel ev h :
  reaches_cache ev = false -> caches (handle fuel ev h) = caches h.
Proof.
  unfold handle. destruct ev as [| |request|payload|n|d]; simpl; try discriminate.
  - intros Hm. unfold dispatch. simpl. unfold on_fetch. rewrite Hm. simpl.
    by destruct fuel.
  - intros _. unfold dispatch. simpl. by destruct fuel.
  - intros _. rewrite notificationclick_run. cbv zeta. unfold focus_or_open.
    destruct (first_root_client (open_pages h)); simpl.
    + by destruct fuel.
    + destruct (openWindow_available h); simpl; by destruct fuel.
  - intros _. unfold dispatch. simpl. unfold on_message.
    destruct (is_skip_waiting d) as [[|]|]; simpl;
      destruct fuel; simpl; rewrite ?settle_nil; reflexivity.
Qed.

Lemma other_events_leave_caches_witness :
  caches (handle 3 (MessageEvent (JsObject [("type", JsString "SKIP_WAITING")]))
            (host_with stale_storage online []))
  = caches (host_with stale_storage online []).
Proof.
  apply (other_events_leave_caches 3
           (MessageEvent (JsObject [("type", JsString "SKIP_WAITING")]))
           (host_with stale_storage online [])).
  reflexivity.
Defined.

End Sequences.

Section FetchFurther.

Import CacheStorage.

Implicit Types (h : Host) (request : Request) (d : ResponseData).

(** The host after a GET answered with 200, the floating work included:
    the bucket is opened, and the entry is written when the Cache interface
    takes it. *)
Lemma handle_fetch_200 h request d :
  method request = "GET" -> network h request = Some d -> status d = 200%Z ->
  handle 2 (FetchEvent request) h =
    let opened :=
      set_caches (open CACHE_NAME)
        (set_store (fun s => s ++ [fresh d])
           (set_store (fun s => s ++ [fresh d]) h)) in
    if storable (url request) d
    then set_caches (update CACHE_NAME (fun b => <[url request := d]> b))
           (set_store (fun s => <[S (length (store h)) := consumed (fresh d)]> s)
              opened)
    else opened.
Proof.
  intros Hm Hnet Hst. unfold handle. rewrite (fetch_get_200 _ _ _ Hm Hnet Hst).
  assert (store (set_store (fun s => s ++ [fresh d])
                   (set_store (fun s => s ++ [fresh d]) h))
            !! S (length (store h)) = Some (fresh d)) as Hclone.
  { simpl.
    replace (S (length (store h))) with (length (store h ++ [fresh d]))
      by (rewrite length_app; simpl; lia).
    apply store_alloc_new. }
  cbv zeta. destruct (storable (url request) d) eqn:Hok.
  - by rewrite (open_and_put_settles _ _ _ d).
  - by rewrite (open_and_put_refused _ _ _ d).
Qed.

(** The host after a GET answered with another status. *)
Lemma handle_fetch_not_200 fuel h request d :
  method request = "GET" -> network h request = Some d -> status d <> 200%Z ->
  handle fuel (FetchEvent request) h = set_store (fun s => s ++ [fresh d]) h.
Proof.
  intros Hm Hnet Hst. unfold handle. rewrite (fetch_get_not_200 _ _ _ Hm Hnet Hst).
  by rewrite settle_nil.
Qed.

Lemma find_open name u (cs : list (string * gmap string ResponseData)) :
  find u (open name cs) = find u cs.
Proof.
  unfold open. destruct (bucket name cs); [done|].
  induction cs as [|[n b] cs IH]; simpl; [done|].
  by destruct (b !! u).
Qed.

(** X4. A cached GET response changes one entry only: in the current named
    cache every other URL keeps its entry, and every other bucket is left as
    it was. *)
Theorem fetch_200_changes_one_entry request h d :
  method request = "GET" -> network h request = Some d -> status d = 200%Z ->
  (forall u, u <> url request ->
     current_entry u (handle 2 (FetchEvent request) h) = current_entry u h) /\
  (forall name, name <> CACHE_NAME ->
     bucket name (caches (handle 2 (FetchEvent request) h))
       = bucket name (caches h)).
Proof.
  intros Hm Hnet Hst. rewrite (handle_fetch_200 _ _ _ Hm Hnet Hst).
  cbv zeta. unfold current_entry.
  destruct (storable (url request) d); cbn [caches set_caches set_store]; split.
  - intros u Hu. rewrite bucket_update, bucket_open. simpl.
    rewrite lookup_insert_ne by done.
    by destruct (bucket CACHE_NAME (caches h)).
  - intros name Hne. rewrite bucket_update_ne, bucket_open_ne by done. done.
  - intros u Hu. rewrite bucket_open. simpl.
    by destruct (bucket CACHE_NAME (caches h)).
  - intros name Hne. by rewrite bucket_open_ne.
Qed.

Lemma fetch_200_changes_one_entry_witness :
  (forall u, u <> url (get "/index.html") ->
     current_entry u (handle 2 (FetchEvent (get "/index.html"))
                        (host_with stale_storage online []))
       = current_entry u (host_with stale_storage online [])) /\
  (forall name, name <> CACHE_NAME ->
     bucket name (caches (handle 2 (FetchEvent (get "/index.html"))
                            (host_with stale_storage online [])))
       = bucket name (caches (host_with stale_storage online []))).
Proof.
  apply (fetch_200_changes_one_entry (get "/index.html")
           (host_with stale_storage online []) home); reflexivity.
Defined.

(** X5. An answer with a status other than 200 does not evict: a response
    that the storage held for the request before is still what the listener
    answers with when the same request is made offline afterwards. *)
Theorem cached_copy_survives_error_answer fuel request h d d0 :
  method request = "GET" -> network h request = Some d -> status d <> 200%Z ->
  find (url request) (caches h) = Some d0 ->
  exists r h3,
    dispatch (FetchEvent request)
      (set_network offline (handle fuel (FetchEvent request) h))
      = (Responded (Fulfilled r), h3, []) /\
    data <$> store h3 !! r = Some d0.
Proof.
  intros Hm Hnet Hst Hf. rewrite (handle_fetch_not_200 _ _ _ _ Hm Hnet Hst).
  rewrite fetch_get_offline by done.
  eexists _, _. split; [reflexivity|].
  cbn [store set_store set_network caches]. rewrite store_alloc_new. simpl.
  by rewrite Hf.
Qed.

Lemma cached_copy_survives_error_answer_witness :
  exists r h3,
    dispatch (FetchEvent (get "/chat"))
      (set_network offline
         (handle 2 (FetchEvent (get "/chat"))
            (host_with [(CACHE_NAME, {[resolve_url site "/chat" := home]})] online [])))
      = (Responded (Fulfilled r), h3, []) /\
    data <$> store h3 !! r = Some home.
Proof.
  apply (cached_copy_survives_error_answer 2 (get "/chat")
           (host_with [(CACHE_NAME, {[resolve_url site "/chat" := home]})] online [])
           not_found home); [reflexivity|reflexivity|discriminate|].
  vm_compute. reflexivity.
Defined.

(** X6. When the worker is torn down before the floating write of a 200
    answer has run (no step, or only the opening of the cache), the page is
    not cached: a later offline request for it is answered exactly as it
    would have been before the fetch, with what the storage held or with
    the 503 response. *)
Theorem torn_down_worker_caches_nothing fuel request h d :
  method request = "GET" -> network h request = Some d -> status d = 200%Z ->
  (fuel < 2)%nat ->
  exists r h3,
    dispatch (FetchEvent request)
      (set_network offline (handle fuel (FetchEvent request) h))
      = (Responded (Fulfilled r), h3, []) /\
    data <$> store h3 !! r
      = Some (default offline_response (find (url request) (caches h))).
Proof.
  intros Hm Hnet Hst Hfuel. unfold handle.
  rewrite (fetch_get_200 _ _ _ Hm Hnet Hst).
  destruct fuel as [|[|fuel]]; [| |lia].
  - cbn [settle fst]. rewrite fetch_get_offline by done.
    eexists _, _. split; [reflexivity|].
    cbn [store set_store set_network caches]. by rewrite store_alloc_new.
  - cbn [settle floating app]. unfold open_and_put, then_, caches_open, detach.
    cbn [settle floating app fst]. rewrite fetch_get_offline by done.
    eexists _, _. split; [reflexivity|].
    cbn [store set_store set_network set_caches caches].
    rewrite store_alloc_new. simpl. by rewrite find_open.
Qed.

Lemma torn_down_worker_caches_nothing_witness :
  exists r h3,
    dispatch (FetchEvent (get "/index.html"))
      (set_network offline
         (handle 1 (FetchEvent (get "/index.html")) (host_with [] online [])))
      = (Responded (Fulfilled r), h3, []) /\
    data <$> store h3 !! r
      = Some (default offline_response
                (find (url (get "/index.html")) (caches (host_with [] online [])))).
Proof.
  apply (torn_down_worker_caches_nothing 1 (get "/index.html")
           (host_with [] online []) home); [reflexivity|reflexivity|reflexivity|lia].
Defined.

End FetchFurther.

Section LifecycleFurther.

Import CacheStorage.

Implicit Types (h : Host) (request : Request) (d : ResponseData).

(** The storage after an activation, with or without the floating claim. *)
Lemma handle_activate fuel h :
  caches (handle fuel ActivateEvent h)
    = List.filter (fun p => String.eqb p.1 CACHE_NAME) (caches h) /\
  network (handle fuel ActivateEvent h) = network h /\
  store (handle fuel ActivateEvent h) = store h.
Proof.
  unfold handle. destruct (activate_run h) as (h1 & -> & Hc & Hn & Hs).
  destruct fuel; simpl; rewrite ?settle_nil; simpl; by rewrite ?Hc, ?Hn, ?Hs.
Qed.

(** The storage after an installation, with or without the floating
    skipWaiting. *)
Lemma handle_install fuel h :
  caches (handle fuel InstallEvent h) = caches (dispatch InstallEvent h).1.2 /\
  network (handle fuel InstallEvent h) = network h /\
  store (handle fuel InstallEvent h) = store h.
Proof.
  unfold handle. rewrite install_run. cbv zeta.
  destruct (fetch_seeds _ _); destruct fuel; simpl; rewrite ?settle_nil; done.
Qed.

(** X8. Activation on a storage that has no bucket under the current name
    deletes every bucket and creates none: the storage is left empty. *)
Theorem activate_without_current_empties fuel h :
  CACHE_NAME ∉ keys (caches h) -> caches (handle fuel ActivateEvent h) = [].
Proof.
  intros Hnot. destruct (handle_activate fuel h) as [-> _].
  by apply keys_filter_absent.
Qed.

Lemma activate_without_current_empties_witness :
  caches (handle 1 ActivateEvent
            (host_with [("neochat-v9-cache", {["/" := old_home]});
                        ("neochat-v8-cache", ∅)] online [])) = [].
Proof.
  apply (activate_without_current_empties 1
           (host_with [("neochat-v9-cache", {["/" := old_home]});
                       ("neochat-v8-cache", ∅)] online [])).
  apply (bool_decide_unpack _). vm_compute. exact I.
Defined.

Lemma filter_current_twice (cs : list (string * gmap string ResponseData)) :
  List.filter (fun p => String.eqb p.1 CACHE_NAME)
    (List.filter (fun p => String.eqb p.1 CACHE_NAME) cs)
  = List.filter (fun p => String.eqb p.1 CACHE_NAME) cs.
Proof.
  induction cs as [|[n b] cs IH]; simpl; [done|].
  destruct (String.eqb n CACHE_NAME) eqn:E; simpl; [|done].
  by rewrite E, IH.
Qed.

(** X9. Activating again changes nothing in the storage: a second activation
    finds only what the first one left. *)
Theorem activate_twice fuel fuel' h :
  caches (handle fuel' ActivateEvent (handle fuel ActivateEvent h))
    = caches (handle fuel ActivateEvent h).
Proof.
  destruct (handle_activate fuel' (handle fuel ActivateEvent h)) as [-> _].
  destruct (handle_activate fuel h) as [-> _]. apply filter_current_twice.
Qed.

Lemma pruned_filter_current (cs : list (string * gmap string ResponseData)) :
  pruned (List.filter (fun p => String.eqb p.1 CACHE_NAME) cs).
Proof.
  intros name. unfold keys.
  intros ([n b] & -> & Hin)%list_elem_of_fmap.
  apply list_elem_of_In, List.filter_In in Hin as [_ Hn]. simpl in *.
  by apply String.eqb_eq.
Qed.

(** X10. Activation loses nothing of the current version: a response that
    the current named cache held before activation is what the listener
    answers with when the request is made offline after it. *)
Theorem cached_page_survives_activation fuel request h d :
  distinct_names (caches h) -> method request = "GET" ->
  current_entry (url request) h = Some d ->
  exists r h3,
    dispatch (FetchEvent request)
      (set_network offline (handle fuel ActivateEvent h))
      = (Responded (Fulfilled r), h3, []) /\
    data <$> store h3 !! r = Some d.
Proof.
  intros Hnd Hm Hentry.
  pose proof (handle_keeps_distinct_names fuel ActivateEvent h Hnd) as Hnd1.
  destruct (handle_activate fuel h) as (Hc & _ & _).
  rewrite fetch_get_offline by done.
  eexists _, _. split; [reflexivity|].
  cbn [store set_store set_network caches]. rewrite store_alloc_new. simpl.
  rewrite find_in_pruned_storage.
  - rewrite Hc, bucket_filter_current. unfold current_entry in Hentry.
    by rewrite Hentry.
  - rewrite Hc. apply pruned_filter_current.
  - done.
Qed.

Lemma cached_page_survives_activation_witness :
  exists r h3,
    dispatch (FetchEvent (get "/index.html"))
      (set_network offline
         (handle 1 ActivateEvent
            (host_with [("neochat-v9-cache", {[resolve_url site "/index.html" := old_home]});
                        (CACHE_NAME, {[resolve_url site "/index.html" := home]})]
               online [])))
      = (Responded (Fulfilled r), h3, []) /\
    data <$> store h3 !! r = Some home.
Proof.
  apply (cached_page_survives_activation 1 (get "/index.html")
           (host_with [("neochat-v9-cache", {[resolve_url site "/index.html" := old_home]});
                       (CACHE_NAME, {[resolve_url site "/index.html" := home]})]
              online []) home).
  - apply (bool_decide_unpack _). vm_compute. exact I.
  - reflexivity.
  - vm_compute. reflexivity.
Defined.

(** X12. Installation only adds and refreshes: in the current named cache
    every URL that is not one of the resolved seed URLs keeps its entry, and
    every other bucket is left as it was, whether the seeds could be fetched
    or not. *)
Theorem install_keeps_other_entries fuel h :
  (forall u, u ∉ resolve_url (origin h) <$> FILES_TO_CACHE ->
     current_entry u (handle fuel InstallEvent h) = current_entry u h) /\
  (forall name, name <> CACHE_NAME ->
     bucket name (caches (handle fuel InstallEvent h)) = bucket name (caches h)).
Proof.
  destruct (handle_install fuel h) as (Hc & _ & _).
  unfold current_entry. rewrite Hc, install_run. cbv zeta. cbn [fst snd].
  destruct (fetch_seeds (network h) (resolve_url (origin h) <$> FILES_TO_CACHE))
    as [l|] eqn:Hseeds; cbn [caches set_caches log_line].
  - split.
    + intros u Hu. rewrite bucket_update, bucket_open. simpl.
      rewrite (put_seeds_lookup _ _ _ _ _ Hseeds), decide_False by done.
      by destruct (bucket CACHE_NAME (caches h)).
    + intros name Hne. by rewrite bucket_update_ne, bucket_open_ne.
  - split.
    + intros u _. rewrite bucket_open. simpl.
      by destruct (bucket CACHE_NAME (caches h)).
    + intros name Hne. by rewrite bucket_open_ne.
Qed.




End LifecycleFurther.

Section NotificationsFurther.

Implicit Types (h : Host) (n : Notification) (c : Client).

Lemma first_root_client_Some (clientList : list Client) c :
  first_root_client clientList = Some c ->
  c ∈ clientList /\ client_url c = "/" /\ has_focus c = true.
Proof.
  induction clientList as [|c0 rest IH]; simpl; [done|].
  destruct (String.eqb_spec (client_url c0) "/") as [H0|H0]; simpl.
  - destruct (has_focus c0) eqn:Hf.
    + intros [= <-]. split; [by left | done].
    + intros H. destruct (IH H) as (? & ? & ?). split; [by right | done].
  - intros H. destruct (IH H) as (? & ? & ?). split; [by right | done].
Qed.

Lemma first_root_client_None (clientList : list Client) c :
  first_root_client clientList = None ->
  c ∈ clientList -> has_focus c = true -> client_url c <> "/".
Proof.
  intros Hnone Hin Hf Hurl.
  destruct (first_root_client_found clientList) as (c' & Hc' & _); [by exists c|].
  congruence.
Qed.

(** The host after a click, by what the loop found. *)
Lemma handle_click fuel n h :
  handle fuel (NotificationClickEvent n) h =
    let h0 := notification_close n (log_line "[SW] Notification clicked:" h) in
    match first_root_client (open_pages h) with
    | Some c => set_focused (Some (client_id c)) h0
    | None =>
        if openWindow_available h
        then bump_id (set_clients (fun cl => cl ++ [opened_root_page h]) h0)
        else h0
    end.
Proof.
  unfold handle. rewrite notificationclick_run. cbv zeta. unfold focus_or_open.
  destruct (first_root_client (open_pages h)); simpl.
  - by rewrite settle_nil.
  - destruct (openWindow_available h); simpl; by rewrite settle_nil.
Qed.

(** X14. A click has one of three outcomes and no other effect on the
    pages.  The clicked notification, and only it, is taken off the display.
    Then either a window client whose URL is '/' is focused and the clients
    are as before; or there is no such client, the host provides
    clients.openWindow, and one page at the root is added while the focus
    stays; or there is no such client, the host provides no openWindow, and
    neither focus nor clients change. *)
Theorem click_outcomes fuel n h :
  let h1 := handle fuel (NotificationClickEvent n) h in
  notifications h1 =
    List.filter (fun m => negb (Nat.eqb (notification_id m) (notification_id n)))
      (notifications h) /\
  ((exists c, c ∈ open_pages h /\ client_url c = "/" /\
              focused h1 = Some (client_id c) /\ clients h1 = clients h) \/
   ((forall c, c ∈ open_pages h -> client_url c <> "/") /\
    openWindow_available h = true /\
    focused h1 = focused h /\ clients h1 = clients h ++ [opened_root_page h]) \/
   ((forall c, c ∈ open_pages h -> client_url c <> "/") /\
    openWindow_available h = false /\
    focused h1 = focused h /\ clients h1 = clients h)).
Proof.
  cbv zeta. rewrite handle_click. cbv zeta.
  destruct (first_root_client (open_pages h)) as [c|] eqn:Hfirst.
  - split; [done|]. left. exists c.
    destruct (first_root_client_Some _ _ Hfirst) as (Hin & Hurl & _). done.
  - assert (forall c, c ∈ open_pages h -> client_url c <> "/") as Hnone.
    { intros c Hc. apply (first_root_client_None _ _ Hfirst Hc).
      by apply (open_pages_have_focus h). }
    destruct (openWindow_available h); (split; [done|]); right; [left | right]; done.
Qed.




End NotificationsFurther.

Section PushFurther.

Implicit Types (h : Host) (payload : option string).

(** The host after a push. *)
Lemma handle_push fuel payload h :
  handle fuel (PushEvent payload) h =
    bump_id (set_notifications
      (fun ns =>
         List.filter (fun m => negb (same_tag "neochat-notification" m)) ns
         ++ [{| notification_id := next_id h; notification_title := "NeoChat";
                notification_options := push_options payload |}])
      (log_line "[SW] Push notification received:" h)).
Proof. unfold handle, dispatch. simpl. by rewrite settle_nil. Qed.

Lemma filter_out_then_in {A} (f : A -> bool) (l : list A) :
  List.filter f (List.filter (fun x => negb (f x)) l) = [].
Proof.
  induction l as [|x l IH]; simpl; [done|].
  destruct (f x) eqn:E; simpl; [done|]. by rewrite E.
Qed.

Lemma filter_out_twice {A} (f : A -> bool) (l : list A) :
  List.filter (fun x => negb (f x)) (List.filter (fun x => negb (f x)) l)
  = List.filter (fun x => negb (f x)) l.
Proof.
  induction l as [|x l IH]; simpl; [done|].
  destruct (f x) eqn:E; simpl; [done|]. by rewrite E, IH.
Qed.

Lemma pushes_keep_other_tags fuel (payloads : list (option string)) h :
  List.filter (fun m => negb (same_tag "neochat-notification" m))
    (notifications (run fuel (PushEvent <$> payloads) h))
  = List.filter (fun m => negb (same_tag "neochat-notification" m))
      (notifications h).
Proof.
  induction payloads as [|payload payloads IH] using rev_ind; [done|].
  rewrite fmap_app. simpl. rewrite run_snoc, handle_push.
  cbn [notifications bump_id set_notifications log_line].
  rewrite List.filter_app, filter_out_twice, IH. simpl. apply app_nil_r.
Qed.

(** X17. Pushes coalesce: after any series of push events the display holds
    exactly one notification under the tag 'neochat-notification', and it
    carries the body of the last push; the notifications under other tags
    are the ones that were there before the series. *)
Theorem pushes_coalesce fuel (payloads : list (option string)) last h :
  let h1 := run fuel (PushEvent <$> (payloads ++ [last])) h in
  (exists n,
     List.filter (same_tag "neochat-notification") (notifications h1) = [n] /\
     opt_body (notification_options n) =
       match last with
       | Some text => text
       | None => "Новое сообщение в NeoChat"
       end) /\
  List.filter (fun m => negb (same_tag "neochat-notification" m)) (notifications h1)
  = List.filter (fun m => negb (same_tag "neochat-notification" m)) (notifications h).
Proof.
  cbv zeta. split; [|apply pushes_keep_other_tags].
  rewrite fmap_app. simpl. rewrite run_snoc, handle_push.
  cbn [notifications bump_id set_notifications log_line].
  eexists. rewrite List.filter_app, filter_out_then_in. simpl.
  split; reflexivity.
Qed.

End PushFurther.

Section AcrossEventsExamples.

Lemma offline_after_online_witness :
  exists r h3,
    dispatch (FetchEvent (get "/index.html"))
      (set_network offline
         (handle 2 (FetchEvent (get "/index.html"))
            (host_with [(CACHE_NAME, ∅)] online [])))
      = (Responded (Fulfilled r), h3, []) /\
    data <$> store h3 !! r = Some home.
Proof.
  apply (offline_after_online (get "/index.html")
           (host_with [(CACHE_NAME, ∅)] online []) home);
    [reflexivity | reflexivity | reflexivity | reflexivity |].
  intros name Hin. simpl in Hin. by apply list_elem_of_singleton in Hin.
Defined.

Lemma install_then_activate_witness :
  CacheStorage.keys
    (caches (dispatch ActivateEvent
               (dispatch InstallEvent (host_with stale_storage offline [])).1.2).1.2)
  = [CACHE_NAME].
Proof.
  apply (install_then_activate (host_with stale_storage offline [])).
  apply (bool_decide_unpack _). vm_compute. exact I.
Defined.

End AcrossEventsExamples.
